(** * The hello-world plugin: filter, paginate and wrap

    A shallow embedding of the three resolvers of [main.go] that carry the
    plugin's algorithmic content,

    - [getUsersResolver]              (active filter, offset/limit window),
    - [getProductsPaginatedResolver]  (category filter, page/pageSize window),
    - [createUserResolver]            (required-field validation, envelope),

    together with the part of the Go runtime they rely on: machine integers,
    slice expressions, run-time panics, the wall clock and [fmt]'s [%d]. *)

From Stdlib Require Import ZArith Lia.
From Stdlib Require Import DecimalString DecimalZ.
From stdpp Require Import base numbers list strings.
From stdpp Require Import gmap.

Local Open Scope Z_scope.

(** ** Go's [int]

    The plugin is built for a 64-bit target, where [int] is a 64-bit
    two's-complement integer.  Values are kept in [Z]; every arithmetic
    operator wraps its mathematical result back into the range. *)
Module GoInt.

Definition MinInt : Z := - 2 ^ 63.
Definition MaxInt : Z := 2 ^ 63 - 1.

Definition wrap (z : Z) : Z := (z + 2 ^ 63) `mod` 2 ^ 64 - 2 ^ 63.

Definition add (x y : Z) : Z := wrap (x + y).
Definition sub (x y : Z) : Z := wrap (x - y).
Definition mul (x y : Z) : Z := wrap (x * y).

(** [x / y] for [y <> 0]: the quotient truncated towards zero
    ([MinInt / -1] wraps to [MinInt]).  Division by zero is a run-time
    panic and is raised by the caller, see [Go.div]. *)
Definition quo (x y : Z) : Z := wrap (x `quot` y).

Definition in_range (z : Z) : Prop := MinInt ≤ z ≤ MaxInt.

End GoInt.

(** ** Panics, the clock and the resolver monad *)

Inductive RuntimeError : Type :=
  | IntegerDivideByZero
  | SliceBoundsOutOfRange.

(** A computation either completes with a value or panics. *)
Inductive result (A : Type) : Type :=
  | Ok (a : A)
  | Panic (e : RuntimeError).
Arguments Ok {A} a.
Arguments Panic {A} e.

Global Instance result_ret : MRet result := λ A a, Ok a.

Global Instance result_bind : MBind result := λ A B k r,
  match r with
  | Ok a => k a
  | Panic e => Panic e
  end.

(** An instant, in nanoseconds since the Unix epoch. *)
Definition Time : Type := Z.

(** The world a resolver runs in: the successive readings that [time.Now()]
    is going to return, and how many of them have been consumed. *)
Record World : Type := mkWorld {
  clock : nat → Time;
  ticks : nat
}.

(** Resolvers read the clock and may panic. *)
Definition M (A : Type) : Type := World → result (A * World).

Global Instance M_ret : MRet M := λ A a w, Ok (a, w).

Global Instance M_bind : MBind M := λ A B k c w,
  match c w with
  | Ok (a, w') => k a w'
  | Panic e => Panic e
  end.

(** A computation that does not touch the clock. *)
Definition lift {A} (r : result A) : M A :=
  λ w, match r with
       | Ok a => Ok (a, w)
       | Panic e => Panic e
       end.

Module Go.

(** [x / y] on [int]. *)
Definition div (x y : Z) : result Z :=
  if decide (y = 0) then Panic IntegerDivideByZero else Ok (GoInt.quo x y).

(** [len(s)]. *)
Definition len {A} (s : list A) : Z := Z.of_nat (length s).

(** The slice expression [s[low:high]].  It panics unless
    [0 <= low <= high <= cap(s)]; at both places where the resolvers slice,
    [high] has just been clamped to at most [len(s)], so a list, which has
    no spare capacity, loses nothing. *)
Definition slice {A} (s : list A) (low high : Z) : result (list A) :=
  if decide (0 ≤ low ∧ low ≤ high ∧ high ≤ len s)
  then Ok (take (Z.to_nat (high - low)) (drop (Z.to_nat low) s))
  else Panic SliceBoundsOutOfRange.

(** [fmt]'s verb [%d]: decimal digits with a leading minus sign for
    negative numbers. *)
Definition fmt_d (z : Z) : string := NilZero.string_of_int (Z.to_int z).

End Go.

Module time.

Definition Second : Z := 10 ^ 9.
Definition Hour : Z := 3600 * Second.

(** [time.Now()]: consume the next clock reading. *)
Definition Now : M Time :=
  λ w, Ok (clock w (ticks w), mkWorld (clock w) (S (ticks w))).

(** [t.Add(d)]. *)
Definition Add (t : Time) (d : Z) : Time := t + d.

(** [t.Unix()]: whole seconds since the epoch. *)
Definition Unix (t : Time) : Z := t `div` Second.

(** [t.Format(time.RFC3339)] for a process whose local zone is UTC and a
    year between 0000 and 9999: the civil date from the day count, then
    [YYYY-MM-DDThh:mm:ssZ]. *)
Definition pad2 (z : Z) : string :=
  if decide (z < 10) then "0" +:+ Go.fmt_d z else Go.fmt_d z.

Definition pad4 (z : Z) : string :=
  if decide (z < 10) then "000" +:+ Go.fmt_d z
  else if decide (z < 100) then "00" +:+ Go.fmt_d z
  else if decide (z < 1000) then "0" +:+ Go.fmt_d z
  else Go.fmt_d z.

Definition civil (days : Z) : Z * Z * Z :=
  let z := days + 719468 in
  let era := z `div` 146097 in
  let doe := z - era * 146097 in
  let yoe := (doe - doe `div` 1460 + doe `div` 36524 - doe `div` 146096) `div` 365 in
  let doy := doe - (365 * yoe + yoe `div` 4 - yoe `div` 100) in
  let mp := (5 * doy + 2) `div` 153 in
  let d := doy - (153 * mp + 2) `div` 5 + 1 in
  let m := if decide (mp < 10) then mp + 3 else mp - 9 in
  let y := yoe + era * 400 + (if decide (m ≤ 2) then 1 else 0) in
  (y, m, d).

Definition Format_RFC3339_UTC (t : Time) : string :=
  let s := Unix t in
  let '(y, m, d) := civil (s `div` 86400) in
  let sod := s `mod` 86400 in
  pad4 y +:+ "-" +:+ pad2 m +:+ "-" +:+ pad2 d +:+ "T" +:+
  pad2 (sod `div` 3600) +:+ ":" +:+ pad2 ((sod `mod` 3600) `div` 60) +:+ ":" +:+
  pad2 (sod `mod` 60) +:+ "Z".

End time.

(** ** Data

    The resolvers build [map[string]interface{}] values with a fixed set of
    keys; each shape is a record, a key that may hold [nil] or be absent is
    an [option]. *)

Module Address.
Record t : Type := mk {
  street : string;
  city : string;
  state : string;
  zip : string
}.
End Address.

Module Tag.
Record t : Type := mk {
  key : string;
  val : string
}.
End Tag.

Module User.
Record t : Type := mk {
  id : string;
  name : string;
  email : string;
  username : string;
  address : option Address.t;
  tags : option (list Tag.t);
  active : bool;
  createdAt : string
}.
End User.

Module Product.
(** [price] is a [float64] literal with two decimals in the source; it is
    kept in hundredths, which is what [%.2f] prints back. *)
Record t : Type := mk {
  id : string;
  name : string;
  description : string;
  price : Z;
  stock : Z;
  tags : list string;
  categories : list string
}.
End Product.

Module ValidationError.
Record t : Type := mk {
  code : string;
  message : string;
  field : string;
  details : list string
}.
End ValidationError.

(** The envelope of the [createUser] mutation. *)
Module UserResponse.
Record t : Type := mk {
  success : bool;
  message : string;
  data : option User.t;
  errors : option (list ValidationError.t)
}.
End UserResponse.

(** The envelope of [getProductsPaginated]. *)
Module PaginatedResponse.
Record t : Type := mk {
  items : list string;
  totalCount : Z;
  pageSize : Z;
  currentPage : Z;
  totalPages : Z;
  hasNextPage : bool;
  hasPreviousPage : bool;
  success : bool;
  message : string
}.
End PaginatedResponse.

(** ** The resolvers *)

Section Plugin.

(** The SDK is a separate module; the resolvers only call its argument
    accessors, each of which takes the key and the default to fall back on. *)
Variable Args : Type.
Variable ParseArgsForResolver : string → Args → Args.
Variable GetIntArg : Args → string → Z → Z.
Variable GetStringArg : Args → string → string → string.
Variable GetBoolArg : Args → string → bool → bool.
Variable GetObjectArg : Args → string → Args.

(** [t.Format(time.RFC3339)], which depends on the zone of the process. *)
Variable Format_RFC3339 : Time → string.

(** *** getUsers *)

(** The sample users; the three [createdAt] stamps read the clock in the
    order they are written. *)
Definition sampleUsers : M (list User.t) :=
  t1 ← time.Now;
  t2 ← time.Now;
  t3 ← time.Now;
  mret [
    User.mk "1" "John Doe" "john.doe@example.com" "johndoe"
      (Some (Address.mk "123 Main St" "New York" "NY" "10001"))
      (Some [Tag.mk "department" "engineering"; Tag.mk "level" "senior"])
      true
      (Format_RFC3339 (time.Add t1 (-24 * time.Hour)));
    User.mk "2" "Jane Smith" "jane.smith@example.com" "janesmith"
      (Some (Address.mk "456 Oak Ave" "Los Angeles" "CA" "90210"))
      (Some [Tag.mk "department" "design"; Tag.mk "level" "mid"])
      false
      (Format_RFC3339 (time.Add t2 (-48 * time.Hour)));
    User.mk "3" "Bob Johnson" "bob.johnson@example.com" "bobjohnson"
      (Some (Address.mk "789 Pine Rd" "Chicago" "IL" "60601"))
      (Some [Tag.mk "department" "marketing"; Tag.mk "level" "junior"])
      true
      (Format_RFC3339 (time.Add t3 (-72 * time.Hour)))
  ].

(** "Apply active filter": one pass over [users], appending each match. *)
Definition filterActive (users : list User.t) (activeFilter : bool)
  : list User.t :=
  foldl (λ filteredUsers user,
           if decide (User.active user = activeFilter)
           then filteredUsers ++ [user]
           else filteredUsers)
        [] users.

(** "Apply pagination": the window [filteredUsers[start:end]]. *)
Definition paginateUsers (filteredUsers : list User.t) (offset limit : Z)
  : result (list User.t) :=
  let start := offset in
  let end_ := GoInt.add offset limit in
  let start :=
    if decide (start > Go.len filteredUsers) then Go.len filteredUsers
    else start in
  let end_ :=
    if decide (end_ > Go.len filteredUsers) then Go.len filteredUsers
    else end_ in
  Go.slice filteredUsers start end_.

(** The body of the resolver over an arbitrary collection of users. *)
Definition getUsersFrom (users : list User.t) (limit offset : Z)
    (activeFilter : bool) : result (list User.t) :=
  paginateUsers (filterActive users activeFilter) offset limit.

Definition getUsers (limit offset : Z) (activeFilter : bool)
  : M (list User.t) :=
  users ← sampleUsers;
  lift (getUsersFrom users limit offset activeFilter).

Definition getUsersResolver (rawArgs : Args) : M (list User.t) :=
  let args := ParseArgsForResolver "getUsers" rawArgs in
  let limit := GetIntArg args "limit" 10 in
  let offset := GetIntArg args "offset" 0 in
  let activeFilter := GetBoolArg args "active" true in
  getUsers limit offset activeFilter.

(** *** getProductsPaginated *)

Definition sampleProducts : list Product.t := [
  Product.mk "1" "Laptop" "High-performance laptop" 99999 10
    ["electronics"; "computers"] ["electronics"; "office"];
  Product.mk "2" "Coffee Mug" "Ceramic coffee mug" 1299 50
    ["kitchen"; "drinkware"] ["home"; "kitchen"];
  Product.mk "3" "Book" "Programming book" 2999 25
    ["education"; "programming"] ["books"; "education"]
].

(** The inner loop over one product's categories: on the first category
    equal to [category] the product is appended and the loop is left. *)
Fixpoint matchCategories (filteredProducts : list Product.t)
    (product : Product.t) (categories : list string) (category : string)
  : list Product.t :=
  match categories with
  | [] => filteredProducts
  | cat :: rest =>
      if decide (cat = category) then filteredProducts ++ [product]
      else matchCategories filteredProducts product rest category
  end.

(** "Filter by category if provided". *)
Definition filterByCategory (allProducts : list Product.t) (category : string)
  : list Product.t :=
  if decide (category ≠ "") then
    foldl (λ filteredProducts product,
             matchCategories filteredProducts product
               (Product.categories product) category)
          [] allProducts
  else allProducts.

(** [fmt]'s verb [%.2f] on a price held in hundredths. *)
Definition fmt_2f (hundredths : Z) : string :=
  (if decide (hundredths < 0) then "-" else "") +:+
  Go.fmt_d (Z.abs hundredths `div` 100) +:+ "." +:+
  time.pad2 (Z.abs hundredths `mod` 100).

(** The summary line of one product. *)
Definition itemString (product : Product.t) : string :=
  Product.name product +:+ " - " +:+ Product.description product +:+
  " ($" +:+ fmt_2f (Product.price product) +:+ ")".

(** "Get page items". *)
Definition pageItemsOf (filteredProducts : list Product.t)
    (offset pageSize : Z) : result (list Product.t) :=
  let total := Go.len filteredProducts in
  if decide (offset < total) then
    let end_ := GoInt.add offset pageSize in
    let end_ := if decide (end_ > total) then total else end_ in
    Go.slice filteredProducts offset end_
  else Ok [].

(** The body of the resolver over an arbitrary catalogue. *)
Definition getProductsPaginatedFrom (allProducts : list Product.t)
    (page pageSize : Z) (category : string) : result PaginatedResponse.t :=
  let filteredProducts := filterByCategory allProducts category in
  let total := Go.len filteredProducts in
  totalPages ← Go.div (GoInt.sub (GoInt.add total pageSize) 1) pageSize;
  let offset := GoInt.mul (GoInt.sub page 1) pageSize in
  pageItems ← pageItemsOf filteredProducts offset pageSize;
  let itemStrings := itemString <$> pageItems in
  mret (PaginatedResponse.mk
          itemStrings
          total
          pageSize
          page
          totalPages
          (bool_decide (page < totalPages))
          (bool_decide (page > 1))
          true
          ("Retrieved " +:+ Go.fmt_d (Go.len pageItems) +:+ " products")).

Definition getProductsPaginated (page pageSize : Z) (category : string)
  : M PaginatedResponse.t :=
  lift (getProductsPaginatedFrom sampleProducts page pageSize category).

Definition getProductsPaginatedResolver (rawArgs : Args)
  : M PaginatedResponse.t :=
  let args := ParseArgsForResolver "getProductsPaginated" rawArgs in
  let page := GetIntArg args "page" 1 in
  let pageSize := GetIntArg args "pageSize" 5 in
  let category := GetStringArg args "category" "" in
  getProductsPaginated page pageSize category.

(** *** createUser *)

Definition createUser (name email username : string) : M UserResponse.t :=
  if decide (name = "" ∨ email = "" ∨ username = "") then
    mret (UserResponse.mk
            false
            "Name, email, and username are required"
            None
            (Some [ValidationError.mk
                     "VALIDATION_ERROR"
                     "Missing required fields"
                     "name,email,username"
                     ["All fields are required for user creation"]]))
  else
    t1 ← time.Now;
    t2 ← time.Now;
    let newUser :=
      User.mk ("user_" +:+ Go.fmt_d (time.Unix t1)) name email username
        None None true (Format_RFC3339 t2) in
    mret (UserResponse.mk true "User created successfully" (Some newUser) None).

Definition createUserResolver (rawArgs : Args) : M UserResponse.t :=
  let args := ParseArgsForResolver "createUser" rawArgs in
  let input := GetObjectArg args "input" in
  let name := GetStringArg input "name" "" in
  let email := GetStringArg input "email" "" in
  let username := GetStringArg input "username" "" in
  createUser name email username.

End Plugin.

(** ** Dynamic values

    What an [interface{}] holds, as far as the handlers below look into it:
    [nil], the types they assert, and any other dynamic type, of which only
    the name is kept. *)
#[warnings="-register-all"]
Inductive Value : Type :=
  | VNil
  | VString (s : string)
  | VInt (z : Z)
  | VBool (b : bool)
  | VStrings (tagSlice : list string)
  | VInts (numberSlice : list Z)
  | VSlice (elements : list Value)
  | VMap (fields : gmap string Value)
  | VOther (type_name : string).

(** The line feed. *)
Definition nl : string := String (Ascii.ascii_of_nat 10) EmptyString.

(** [fmt]'s verb [%t]. *)
Definition fmt_t (b : bool) : string := if b then "true" else "false".

(** [for i, x := range s { body }], threading the state the body updates;
    [i] counts from [start]. *)
Fixpoint range_from {A S : Type} (body : Z → A → S → S) (start : Z)
    (s : list A) (st : S) : S :=
  match s with
  | [] => st
  | x :: rest => range_from body (start + 1) rest (body start x st)
  end.

Definition range {A S : Type} (body : Z → A → S → S) (s : list A) (st : S) : S :=
  range_from body 0 s st.

(** *** customHelloRESTHandler *)

Module CustomHello.
Record t : Type := mk {
  greeting : string;
  plugin : string;
  version : string
}.
End CustomHello.

Definition customHelloRESTHandler (args : gmap string Value) : CustomHello.t :=
  let name := "World" in
  let message := "Hello" in
  let name :=
    match args !! "name" with
    | Some (VString nameArg) => if decide (nameArg ≠ "") then nameArg else name
    | _ => name
    end in
  let message :=
    match args !! "message" with
    | Some (VString msgArg) => if decide (msgArg ≠ "") then msgArg else message
    | _ => message
    end in
  CustomHello.mk (message +:+ ", " +:+ name +:+ "! (SDK Version)")
    "hc-hello-world-plugin" "2.0.0-sdk".

Section Handlers.

(** The SDK's accessors on [map[string]interface{}]; the defaults are
    variadic. *)
Variable ParseArgsForResolver : string → gmap string Value → gmap string Value.
Variable GetObjectArg : gmap string Value → string → gmap string Value.
Variable GetArrayArg : gmap string Value → string → list Value.
Variable GetIntArg : gmap string Value → string → list Z → Z.
Variable GetStringArg : gmap string Value → string → list string → string.
Variable GetBoolArg : gmap string Value → string → list bool → bool.

(** The context the host passes along with the arguments. *)
Variable GetPluginID : gmap string Value → string.
Variable GetProjectID : gmap string Value → string.
Variable GetUserID : gmap string Value → string.
Variable GetTenantID : gmap string Value → string.

(** *** helloWorldResolver *)

(** The line of one element of [arrayofObjects]. *)
Definition writeObject (i : Z) (obj : Value) (result : string) : string :=
  match obj with
  | VMap objMap =>
      let objName := GetStringArg objMap "name" [] in
      let objAge := GetIntArg objMap "age" [] in
      result +:+ ("  Object " +:+ Go.fmt_d (GoInt.add i 1) +:+ ": name=" +:+
                  objName +:+ " age=" +:+ Go.fmt_d objAge +:+ nl)
  | _ => result
  end.

Definition helloWorldResolver (rawArgs : gmap string Value) : string :=
  let pluginID := GetPluginID rawArgs in
  let projectID := GetProjectID rawArgs in
  let userID := GetUserID rawArgs in
  let tenantID := GetTenantID rawArgs in
  let args := ParseArgsForResolver "helloWorldQuery" rawArgs in
  let result := "" in
  let result :=
    result +:+ "Hello World Plugin Response (SDK Version with Auto-Parsing):"
           +:+ nl in
  let result :=
    if decide (pluginID ≠ "")
    then result +:+ ("🔐 Plugin ID: " +:+ pluginID +:+ nl) else result in
  let result :=
    if decide (projectID ≠ "")
    then result +:+ ("🏗️  Project ID: " +:+ projectID +:+ nl) else result in
  let result :=
    if decide (userID ≠ "")
    then result +:+ ("👤 User ID: " +:+ userID +:+ nl) else result in
  let result :=
    if decide (tenantID ≠ "")
    then result +:+ ("🏢 Tenant ID: " +:+ tenantID +:+ nl) else result in
  let name := GetStringArg args "name" ["World"] in
  let result := result +:+ ("Hello, " +:+ name +:+ "!" +:+ nl) in
  let result :=
    let obj := GetObjectArg args "object" in
    if decide (Z.of_nat (size obj) > 0) then
      let result := result +:+ "Object received: " in
      let objName := GetStringArg obj "name" [] in
      let objAge := GetIntArg obj "age" [] in
      result +:+ ("name=" +:+ objName +:+ " age=" +:+ Go.fmt_d objAge +:+ nl)
    else result in
  let result :=
    let arrObjs := GetArrayArg args "arrayofObjects" in
    if decide (Go.len arrObjs > 0) then
      let result := result +:+ "Array of Objects received:" +:+ nl in
      range writeObject arrObjs result
    else result in
  result.

(** *** processComplexDataResolver *)

(** "Process single user object". *)
Definition writeUser (args : gmap string Value) (result : string) : string :=
  let user := GetObjectArg args "user" in
  if decide (Z.of_nat (size user) > 0) then
    let result := result +:+ "User: " in
    let id := GetIntArg user "id" [] in
    let name := GetStringArg user "name" [] in
    let email := GetStringArg user "email" [] in
    let age := GetIntArg user "age" [] in
    let active := GetBoolArg user "active" [] in
    result +:+ ("ID=" +:+ Go.fmt_d id +:+ " Name=" +:+ name +:+ " Email=" +:+
                email +:+ " Age=" +:+ Go.fmt_d age +:+ " Active=" +:+
                fmt_t active +:+ nl)
  else result.

(** "Process array of strings (tags)". *)
Definition writeTags (args : gmap string Value) (result : string) : string :=
  match args !! "tags" with
  | Some (VStrings tagSlice) =>
      let result := result +:+ "Tags: " in
      let result :=
        range (λ i tag result,
                 let result := result +:+ tag in
                 if decide (i < GoInt.sub (Go.len tagSlice) 1)
                 then result +:+ ", " else result)
              tagSlice result in
      result +:+ nl
  | _ => result
  end.

(** "Process array of integers (numbers)". *)
Definition writeNumbers (args : gmap string Value) (result : string) : string :=
  match args !! "numbers" with
  | Some (VInts numberSlice) =>
      let result := result +:+ "Numbers: " in
      let result :=
        range (λ i num result,
                 let result := result +:+ Go.fmt_d num in
                 if decide (i < GoInt.sub (Go.len numberSlice) 1)
                 then result +:+ ", " else result)
              numberSlice result in
      result +:+ nl
  | _ => result
  end.

(** The line of one element of [users]. *)
Definition writeListedUser (i : Z) (user : Value) (result : string) : string :=
  match user with
  | VMap userMap =>
      let id := GetIntArg userMap "id" [] in
      let name := GetStringArg userMap "name" [] in
      let email := GetStringArg userMap "email" [] in
      result +:+ ("  User " +:+ Go.fmt_d (GoInt.add i 1) +:+ ": ID=" +:+
                  Go.fmt_d id +:+ " Name=" +:+ name +:+ " Email=" +:+ email +:+ nl)
  | _ => result
  end.

(** "Process array of user objects (users)". *)
Definition writeUsers (args : gmap string Value) (result : string) : string :=
  let users := GetArrayArg args "users" in
  if decide (Go.len users > 0) then
    let result := result +:+ "Users:" +:+ nl in
    range writeListedUser users result
  else result.

(** The line of one element of [optionalUsers]. *)
Definition writeOptionalUser (i : Z) (user : Value) (result : string) : string :=
  match user with
  | VNil =>
      result +:+ ("  Optional User " +:+ Go.fmt_d (GoInt.add i 1) +:+ ": null" +:+ nl)
  | VMap userMap =>
      let name := GetStringArg userMap "name" [] in
      let email := GetStringArg userMap "email" [] in
      result +:+ ("  Optional User " +:+ Go.fmt_d (GoInt.add i 1) +:+ ": Name=" +:+
                  name +:+ " Email=" +:+ email +:+ nl)
  | _ => result
  end.

(** "Process array of optional user objects (optionalUsers)". *)
Definition writeOptionalUsers (args : gmap string Value) (result : string)
  : string :=
  let optionalUsers := GetArrayArg args "optionalUsers" in
  if decide (Go.len optionalUsers > 0) then
    let result := result +:+ "Optional Users:" +:+ nl in
    range writeOptionalUser optionalUsers result
  else result.

Definition processComplexDataResolver (rawArgs : gmap string Value) : string :=
  let args := ParseArgsForResolver "processComplexData" rawArgs in
  let result := "" in
  let result :=
    result +:+ "Processing complex data (SDK Version with Auto-Parsing):"
           +:+ nl in
  let result := writeUser args result in
  let result := writeTags args result in
  let result := writeNumbers args result in
  let result := writeUsers args result in
  let result := writeOptionalUsers args result in
  result.

End Handlers.

(** Modelled from the spec: the SDK's argument accessors, which live outside
    this repository ("Argument Accessor", section 4.1): the value under the
    key when it has the requested type, otherwise the caller's default, or
    the zero value when none is given. *)
Module SpecSDK.

Definition ParseArgsForResolver (resolver : string) (rawArgs : gmap string Value)
  : gmap string Value := rawArgs.

Definition GetStringArg (args : gmap string Value) (key : string)
    (defaults : list string) : string :=
  match args !! key with
  | Some (VString s) => s
  | _ => default "" (head defaults)
  end.

Definition GetIntArg (args : gmap string Value) (key : string)
    (defaults : list Z) : Z :=
  match args !! key with
  | Some (VInt z) => z
  | _ => default 0 (head defaults)
  end.

Definition GetBoolArg (args : gmap string Value) (key : string)
    (defaults : list bool) : bool :=
  match args !! key with
  | Some (VBool b) => b
  | _ => default false (head defaults)
  end.

Definition GetObjectArg (args : gmap string Value) (key : string)
  : gmap string Value :=
  match args !! key with
  | Some (VMap fields) => fields
  | _ => ∅
  end.

Definition GetArrayArg (args : gmap string Value) (key : string) : list Value :=
  match args !! key with
  | Some (VSlice elements) => elements
  | _ => []
  end.

(** The context identifiers travel in the raw arguments. *)
Definition GetContextID (key : string) (rawArgs : gmap string Value) : string :=
  GetStringArg rawArgs key [].

End SpecSDK.

(** ** What the specification says, in its own words *)

(** ceil(n/d), as the negated floor of the negated quotient. *)
Definition ceil_div (n d : Z) : Z := - ((- n) `div` d).

(** The names of the required fields that are empty, in declaration order,
    and their comma-joined list. *)
Definition missingFields (name email username : string) : list string :=
  (if decide (name = "") then ["name"] else []) ++
  (if decide (email = "") then ["email"] else []) ++
  (if decide (username = "") then ["username"] else []).

Fixpoint joinComma (fields : list string) : string :=
  match fields with
  | [] => ""
  | [f] => f
  | f :: rest => f +:+ "," +:+ joinComma rest
  end.

(** The mutation-envelope invariant. *)
Definition envelope_ok (r : UserResponse.t) : Prop :=
  (UserResponse.success r = false →
     UserResponse.data r = None ∧ UserResponse.errors r ≠ None) ∧
  (UserResponse.success r = true →
     UserResponse.errors r = None ∧ UserResponse.data r ≠ None).

(** What the specification asks of a failed validation: one error that
    names exactly the missing fields. *)
Definition reports_missing_fields (name email username : string)
    (r : UserResponse.t) : Prop :=
  UserResponse.success r = false ∧
  UserResponse.data r = None ∧
  ∃ e, UserResponse.errors r = Some [e] ∧
       ValidationError.code e = "VALIDATION_ERROR" ∧
       ValidationError.message e = "Missing required fields" ∧
       ValidationError.field e = joinComma (missingFields name email username).

(** ** A sample world

    Four clock readings on 14 November 2023, 22:13:20 UTC, each later than
    the one before and all within the same second. *)
Definition world_2023 : World :=
  mkWorld (λ n, nth n [1700000000000000000; 1700000000000400000;
                       1700000000250000000]
                      1700000000900000000) 0.

(** Four readings half a second apart, starting at the same instant. *)
Definition world_2023_slow : World :=
  mkWorld (λ n, nth n [1700000000000000000; 1700000000500000000;
                       1700000001000000000]
                      1700000001500000000) 0.

(** The sample users as built in [world_2023]. *)
Definition users_2023 : list User.t :=
  match sampleUsers time.Format_RFC3339_UTC world_2023 with
  | Ok (users, _) => users
  | Panic _ => []
  end.

(** Lines written one after the other. *)
Definition joinLines (lines : list string) : string :=
  foldr String.append "" lines.

(** A labelled line that is written only for a non-empty value. *)
Definition lineIfSet (label value : string) : string :=
  if decide (value ≠ "") then label +:+ value +:+ nl else "".

(** ** Ranges of the inputs *)

(** [sdk.IntArg] declares a GraphQL [Int]: a signed 32-bit value. *)
Definition gql_int (z : Z) : Prop := - 2 ^ 31 ≤ z < 2 ^ 31.

(** A slice of 16-byte interface values in a 64-bit address space holds
    fewer than [2^59] of them. *)
Definition MaxSliceLen : Z := 2 ^ 59.

(** ** Machine arithmetic *)

Lemma wrap_id (z : Z) : GoInt.in_range z → GoInt.wrap z = z.
Proof.
  unfold GoInt.in_range, GoInt.MinInt, GoInt.MaxInt, GoInt.wrap.
  intros Hz. rewrite Z.mod_small; lia.
Qed.

Lemma wrap_in_range (z : Z) : GoInt.in_range (GoInt.wrap z).
Proof.
  unfold GoInt.in_range, GoInt.MinInt, GoInt.MaxInt, GoInt.wrap.
  pose proof (Z.mod_pos_bound (z + 2 ^ 63) (2 ^ 64)). lia.
Qed.

Lemma ceil_div_bounds (n d : Z) :
  0 < d → (ceil_div n d - 1) * d < n ∧ n ≤ ceil_div n d * d.
Proof.
  intros Hd. unfold ceil_div.
  pose proof (Z.div_mod (- n) d ltac:(lia)) as Hdm.
  pose proof (Z.mod_pos_bound (- n) d Hd) as Hm.
  nia.
Qed.

Lemma ceil_div_least (n d k : Z) : 0 < d → n ≤ k * d → ceil_div n d ≤ k.
Proof.
  intros Hd Hk. destruct (ceil_div_bounds n d Hd) as [Hlo _]. nia.
Qed.

Lemma quot_ceil_div (n d : Z) :
  0 ≤ n → 0 < d → (n + d - 1) `quot` d = ceil_div n d.
Proof.
  intros Hn Hd. rewrite Z.quot_div_nonneg by lia.
  destruct (ceil_div_bounds n d Hd) as [Hlo Hhi].
  symmetry. apply (Z.div_unique_pos _ _ _ (n + d - 1 - ceil_div n d * d)); lia.
Qed.

Example add_wraps : GoInt.add GoInt.MaxInt 1 = GoInt.MinInt.
Proof. reflexivity. Qed.

Example quo_truncates : GoInt.quo (-3) (-5) = 0 ∧ GoInt.quo (-7) 2 = -3.
Proof. split; reflexivity. Qed.

(** ** Slices *)

Lemma len_nonneg {A} (s : list A) : 0 ≤ Go.len s.
Proof. unfold Go.len. lia. Qed.

Lemma slice_ok {A} (s : list A) (low high : Z) :
  0 ≤ low → low ≤ high → high ≤ Go.len s →
  Go.slice s low high = Ok (take (Z.to_nat (high - low)) (drop (Z.to_nat low) s)).
Proof.
  intros. unfold Go.slice. rewrite decide_True; [done | lia].
Qed.

Lemma slice_negative_low {A} (s : list A) (low high : Z) :
  low < 0 → Go.slice s low high = Panic SliceBoundsOutOfRange.
Proof.
  intros. unfold Go.slice. rewrite decide_False; [done | lia].
Qed.

Lemma slice_high_below_low {A} (s : list A) (low high : Z) :
  high < low → Go.slice s low high = Panic SliceBoundsOutOfRange.
Proof.
  intros. unfold Go.slice. rewrite decide_False; [done | lia].
Qed.

(** ** The two filters are [filter] *)

(** A loop that appends the elements satisfying [P] computes [filter P]. *)
Lemma foldl_append_filter {A} (P : A → Prop) `{!∀ x, Decision (P x)}
    (f : list A → A → list A) (acc l : list A) :
  (∀ acc x, f acc x = if decide (P x) then acc ++ [x] else acc) →
  foldl f acc l = acc ++ filter P l.
Proof.
  intros Hf. revert acc.
  induction l as [|x l IH]; intros acc; simpl.
  - by rewrite app_nil_r.
  - rewrite IH, Hf, filter_cons.
    destruct (decide (P x)); [by rewrite <- app_assoc | done].
Qed.

Lemma filterActive_filter (users : list User.t) (activeFilter : bool) :
  filterActive users activeFilter
  = filter (λ user, User.active user = activeFilter) users.
Proof.
  unfold filterActive.
  by rewrite (foldl_append_filter (λ user, User.active user = activeFilter)).
Qed.

Lemma matchCategories_elem (filteredProducts : list Product.t)
    (product : Product.t) (categories : list string) (category : string) :
  matchCategories filteredProducts product categories category
  = if decide (category ∈ categories) then filteredProducts ++ [product]
    else filteredProducts.
Proof.
  induction categories as [|cat rest IH]; cbn [matchCategories].
  - rewrite decide_False; [done | apply not_elem_of_nil].
  - rewrite IH.
    destruct (decide (cat = category)) as [->|Hne].
    + rewrite decide_True; [done | apply list_elem_of_here].
    + destruct (decide (category ∈ rest)) as [Hin|Hnin].
      * rewrite decide_True; [done | by apply list_elem_of_further].
      * rewrite decide_False; [done |].
        intros [?|?]%elem_of_cons; congruence.
Qed.

Lemma filterByCategory_filter (allProducts : list Product.t) (category : string) :
  category ≠ "" →
  filterByCategory allProducts category
  = filter (λ product, category ∈ Product.categories product) allProducts.
Proof.
  intros Hc. unfold filterByCategory. rewrite decide_True by done.
  rewrite (foldl_append_filter (λ product, category ∈ Product.categories product));
    [done |].
  intros acc x. apply matchCategories_elem.
Qed.

Lemma filterByCategory_length (allProducts : list Product.t) (category : string) :
  Go.len (filterByCategory allProducts category) ≤ Go.len allProducts.
Proof.
  unfold Go.len. destruct (decide (category = "")) as [->|Hc].
  - done.
  - rewrite filterByCategory_filter by done.
    pose proof (length_filter (λ product, category ∈ Product.categories product)
                  allProducts). lia.
Qed.

(** ** getUsers *)

(** C7. For every collection and every value of the active filter, the
    active-status filter of getUsers is the stable filter on
    [active = activeFilter]: its result is a subsequence of the collection,
    in the original relative order, and is no longer than the collection. *)
Theorem filterActive_stable (users : list User.t) (activeFilter : bool) :
  filterActive users activeFilter
    = filter (λ user, User.active user = activeFilter) users ∧
  filterActive users activeFilter `sublist_of` users ∧
  (length (filterActive users activeFilter) ≤ length users)%nat.
Proof.
  rewrite filterActive_filter. split; [done |]. split.
  - apply sublist_filter.
  - apply length_filter.
Qed.

(** Inside the collection the window is the one the specification
    describes: skip [offset] items, keep at most [limit]. *)
Lemma paginateUsers_window (filteredUsers : list User.t) (offset limit : Z) :
  0 ≤ offset → 0 ≤ limit → offset + limit ≤ GoInt.MaxInt →
  paginateUsers filteredUsers offset limit
  = Ok (take (Z.to_nat limit) (drop (Z.to_nat offset) filteredUsers)).
Proof.
  intros Ho Hl Hmax. unfold paginateUsers, GoInt.add.
  rewrite (wrap_id (offset + limit)) by (unfold GoInt.in_range, GoInt.MinInt; lia).
  pose proof (len_nonneg filteredUsers) as HN.
  repeat case_decide; rewrite slice_ok by lia; f_equal; unfold Go.len in *.
  - rewrite !drop_ge by lia. by rewrite !take_nil.
  - lia.
  - rewrite (take_ge _ (Z.to_nat limit)) by (rewrite length_drop; lia).
    apply take_ge. rewrite length_drop. lia.
  - f_equal. lia.
Qed.

Lemma paginateUsers_at_most_limit (filteredUsers page : list User.t)
    (offset limit : Z) :
  0 ≤ offset → 0 ≤ limit → offset + limit ≤ GoInt.MaxInt →
  paginateUsers filteredUsers offset limit = Ok page →
  Go.len page ≤ limit ∧ page `sublist_of` filteredUsers.
Proof.
  intros Ho Hl Hmax. rewrite paginateUsers_window by done.
  intros [= <-]. split.
  - unfold Go.len. rewrite length_take. lia.
  - etrans; [apply sublist_take | apply sublist_drop].
Qed.

(** A negative [offset] is not raised to zero: it reaches the slice
    expression as its lower bound. *)
Lemma paginateUsers_negative_offset (filteredUsers : list User.t)
    (offset limit : Z) :
  offset < 0 →
  paginateUsers filteredUsers offset limit = Panic SliceBoundsOutOfRange.
Proof.
  intros Ho. unfold paginateUsers.
  pose proof (len_nonneg filteredUsers).
  rewrite (decide_False (P := offset > _)) by lia.
  by apply slice_negative_low.
Qed.

Lemma sampleUsers_ok (Format_RFC3339 : Time → string) (w : World) :
  ∃ users, sampleUsers Format_RFC3339 w
           = Ok (users, mkWorld (clock w) (S (S (S (ticks w))))) ∧
           User.active <$> users = [true; false; true].
Proof. eexists. split; reflexivity. Qed.

(** A negative [limit] puts the upper bound below the lower one. *)
Lemma paginateUsers_negative_limit (filteredUsers : list User.t)
    (offset limit : Z) :
  0 ≤ offset ≤ Go.len filteredUsers → offset ≤ GoInt.MaxInt →
  limit < 0 → - 2 ^ 31 ≤ limit →
  paginateUsers filteredUsers offset limit = Panic SliceBoundsOutOfRange.
Proof.
  intros Ho Hmax Hl Hmin. unfold paginateUsers, GoInt.add.
  rewrite (wrap_id (offset + limit))
    by (unfold GoInt.in_range, GoInt.MinInt, GoInt.MaxInt in *; lia).
  rewrite !decide_False by lia.
  apply slice_high_below_low. lia.
Qed.

(** C3, at offset = -1, limit = 10 and at offset = 0, limit = -1: the
    resolver panics in the slice expression instead of clamping the offset
    to zero or returning at most [limit] items. *)
Theorem getUsers_negative_window_panics
    (Format_RFC3339 : Time → string) (activeFilter : bool) (w : World) :
  getUsers Format_RFC3339 10 (-1) activeFilter w = Panic SliceBoundsOutOfRange ∧
  getUsers Format_RFC3339 (-1) 0 activeFilter w = Panic SliceBoundsOutOfRange.
Proof.
  unfold getUsers.
  destruct (sampleUsers_ok Format_RFC3339 w) as (users & Hs & _).
  unfold mbind, M_bind. rewrite Hs.
  unfold lift, getUsersFrom. split.
  - by rewrite paginateUsers_negative_offset.
  - rewrite paginateUsers_negative_limit; [done | | done | lia | lia].
    split; [lia | apply len_nonneg].
Qed.

(** Scenario 1: the default arguments return the two active users, in the
    order of the sample data. *)
Example getUsers_scenario_1 :
  ∃ users w', getUsers time.Format_RFC3339_UTC 10 0 true world_2023
                = Ok (users, w') ∧
              User.id <$> users = ["1"; "3"] ∧
              User.createdAt <$> users
                = ["2023-11-13T22:13:20Z"; "2023-11-11T22:13:20Z"].
Proof. do 2 eexists. split; [reflexivity |]. by vm_compute. Qed.

(** ** getProductsPaginated *)

(** C6. For a non-empty category the product filter of getProductsPaginated
    is the stable filter on membership of the category in the product's
    categories: a product is kept exactly when the category is one of its
    categories.  For the empty category the filter is the identity. *)
Theorem filterByCategory_membership
    (allProducts : list Product.t) (category : string) :
  (category ≠ "" →
     filterByCategory allProducts category
       = filter (λ product, category ∈ Product.categories product) allProducts ∧
     ∀ product, product ∈ filterByCategory allProducts category
                ↔ product ∈ allProducts ∧ category ∈ Product.categories product) ∧
  filterByCategory allProducts "" = allProducts.
Proof.
  split; [| reflexivity].
  intros Hc. rewrite filterByCategory_filter by done. split; [done |].
  intros product. rewrite list_elem_of_filter. tauto.
Qed.

Lemma filterByCategory_membership_witness :
  "electronics" ≠ "" ∧
  filterByCategory sampleProducts "electronics"
  = [Product.mk "1" "Laptop" "High-performance laptop" 99999 10
       ["electronics"; "computers"] ["electronics"; "office"]].
Proof.
  split; [done |].
  destruct (filterByCategory_membership sampleProducts "electronics") as [H _].
  destruct (H ltac:(done)) as [-> _]. reflexivity.
Defined.

(** The window of one page: skip [offset] items, keep at most [pageSize]. *)
Lemma pageItemsOf_window (filteredProducts : list Product.t)
    (offset pageSize : Z) :
  0 ≤ offset → 0 < pageSize → offset + pageSize ≤ GoInt.MaxInt →
  pageItemsOf filteredProducts offset pageSize
  = Ok (take (Z.to_nat pageSize) (drop (Z.to_nat offset) filteredProducts)).
Proof.
  intros Ho Hp Hmax. unfold pageItemsOf, GoInt.add.
  rewrite (wrap_id (offset + pageSize))
    by (unfold GoInt.in_range, GoInt.MinInt; lia).
  repeat case_decide; [rewrite slice_ok by lia .. |]; f_equal;
    unfold Go.len in *.
  - rewrite (take_ge _ (Z.to_nat pageSize)) by (rewrite length_drop; lia).
    apply take_ge. rewrite length_drop. lia.
  - f_equal. lia.
  - rewrite drop_ge by lia. by rewrite take_nil.
Qed.

(** The whole response, for arguments in the range of their declared type. *)
Lemma getProductsPaginatedFrom_ok (allProducts : list Product.t)
    (page pageSize : Z) (category : string) :
  gql_int page → gql_int pageSize → Go.len allProducts < MaxSliceLen →
  pageSize > 0 → 1 ≤ page →
  let filteredProducts := filterByCategory allProducts category in
  let total := Go.len filteredProducts in
  let pageItems :=
    take (Z.to_nat pageSize)
         (drop (Z.to_nat ((page - 1) * pageSize)) filteredProducts) in
  getProductsPaginatedFrom allProducts page pageSize category
  = Ok (PaginatedResponse.mk
          (itemString <$> pageItems)
          total
          pageSize
          page
          (ceil_div total pageSize)
          (bool_decide (page < ceil_div total pageSize))
          (bool_decide (page > 1))
          true
          ("Retrieved " +:+ Go.fmt_d (Go.len pageItems) +:+ " products")).
Proof.
  unfold gql_int, MaxSliceLen. intros Hpage Hsize Hlen Hpos Hfirst.
  pose proof (filterByCategory_length allProducts category) as Hle.
  pose proof (len_nonneg (filterByCategory allProducts category)) as HN.
  cbv zeta. unfold getProductsPaginatedFrom.
  set (filteredProducts := filterByCategory allProducts category) in *.
  set (total := Go.len filteredProducts) in *.
  destruct (ceil_div_bounds total pageSize ltac:(lia)) as [Hlo Hhi].
  unfold GoInt.add, GoInt.sub, GoInt.mul, Go.div, GoInt.quo.
  rewrite (wrap_id (total + pageSize))
    by (unfold GoInt.in_range, GoInt.MinInt, GoInt.MaxInt; lia).
  rewrite (wrap_id (total + pageSize - 1))
    by (unfold GoInt.in_range, GoInt.MinInt, GoInt.MaxInt; lia).
  rewrite (wrap_id (page - 1))
    by (unfold GoInt.in_range, GoInt.MinInt, GoInt.MaxInt; lia).
  rewrite (wrap_id ((page - 1) * pageSize))
    by (unfold GoInt.in_range, GoInt.MinInt, GoInt.MaxInt; nia).
  rewrite decide_False by lia.
  rewrite quot_ceil_div by lia.
  rewrite (wrap_id (ceil_div total pageSize))
    by (unfold GoInt.in_range, GoInt.MinInt, GoInt.MaxInt; nia).
  unfold mbind, result_bind.
  rewrite pageItemsOf_window by (unfold GoInt.MaxInt; nia).
  reflexivity.
Qed.

(** The range of the arguments matters: a page size at the top of the
    64-bit range, which no GraphQL [Int] reaches, makes the sum
    [total + pageSize - 1] wrap. *)
Example totalPages_wraps_beyond_gql_int :
  PaginatedResponse.totalPages
    <$> (match getProductsPaginatedFrom sampleProducts 1 GoInt.MaxInt "" with
         | Ok r => Some r
         | Panic _ => None
         end)
  = Some (-1).
Proof. by vm_compute. Qed.

(** C2. For every catalogue whose filtered size is N, every pageSize > 0 and
    every page >= 1 (both GraphQL [Int]s), getProductsPaginated returns an
    envelope with totalCount = N, totalPages = ceil(N/pageSize), which is the
    least number of pages of that size that hold N items,
    hasNextPage = (page < totalPages) and hasPreviousPage = (page > 1). *)
Theorem getProductsPaginated_metadata (allProducts : list Product.t)
    (page pageSize : Z) (category : string) :
  gql_int page → gql_int pageSize → Go.len allProducts < MaxSliceLen →
  pageSize > 0 → 1 ≤ page →
  ∃ r, getProductsPaginatedFrom allProducts page pageSize category = Ok r ∧
       let N := Go.len (filterByCategory allProducts category) in
       PaginatedResponse.totalCount r = N ∧
       PaginatedResponse.totalPages r = ceil_div N pageSize ∧
       (PaginatedResponse.totalPages r - 1) * pageSize < N
         ≤ PaginatedResponse.totalPages r * pageSize ∧
       PaginatedResponse.hasNextPage r
         = bool_decide (page < PaginatedResponse.totalPages r) ∧
       PaginatedResponse.hasPreviousPage r = bool_decide (page > 1).
Proof.
  intros Hpage Hsize Hlen Hpos Hfirst.
  eexists. split.
  - by apply getProductsPaginatedFrom_ok.
  - cbn. repeat split; try reflexivity; apply ceil_div_bounds; lia.
Qed.

Lemma getProductsPaginated_metadata_witness :
  ∃ r, getProductsPaginatedFrom sampleProducts 2 2 "" = Ok r ∧
       PaginatedResponse.items r = ["Book - Programming book ($29.99)"] ∧
       PaginatedResponse.totalCount r = 3 ∧
       PaginatedResponse.totalPages r = 2 ∧
       PaginatedResponse.hasNextPage r = false ∧
       PaginatedResponse.hasPreviousPage r = true.
Proof.
  destruct (getProductsPaginated_metadata sampleProducts 2 2 "")
    as (r & Hr & Hcount & Hpages & _ & Hnext & Hprev);
    [unfold gql_int; lia | unfold gql_int; lia | by vm_compute | lia | lia |].
  exists r. split; [done |].
  rewrite Hnext, Hprev, Hpages, Hcount.
  injection Hr as <-. by vm_compute.
Defined.

(** Scenario 3: three products, page 1 of size 5. *)
Example getProductsPaginated_scenario_3 :
  getProductsPaginated 1 5 "" world_2023
  = Ok (PaginatedResponse.mk
          ["Laptop - High-performance laptop ($999.99)";
           "Coffee Mug - Ceramic coffee mug ($12.99)";
           "Book - Programming book ($29.99)"]
          3 5 1 1 false false true "Retrieved 3 products",
        world_2023).
Proof. reflexivity. Qed.

(** C9. Every envelope that getProductsPaginated returns, whatever the page,
    the pageSize and the category, and also when its page of items is empty,
    carries success = true and the non-empty message
    "Retrieved <number of items> products"; and for every pageSize > 0 and
    page >= 1 an envelope is returned. *)
Theorem getProductsPaginated_success_message (allProducts : list Product.t)
    (page pageSize : Z) (category : string) :
  (∀ r, getProductsPaginatedFrom allProducts page pageSize category = Ok r →
        PaginatedResponse.success r = true ∧
        PaginatedResponse.message r
          = "Retrieved " +:+ Go.fmt_d (Go.len (PaginatedResponse.items r))
              +:+ " products" ∧
        PaginatedResponse.message r ≠ "") ∧
  (gql_int page → gql_int pageSize → Go.len allProducts < MaxSliceLen →
   pageSize > 0 → 1 ≤ page →
   ∃ r, getProductsPaginatedFrom allProducts page pageSize category = Ok r).
Proof.
  split.
  - intros r. unfold getProductsPaginatedFrom, mbind, result_bind.
    destruct (Go.div _ _) as [totalPages|]; [| done].
    destruct (pageItemsOf _ _ _) as [pageItems|]; [| done].
    intros [= <-]. cbn. unfold Go.len. rewrite length_fmap. done.
  - intros. eexists. by apply getProductsPaginatedFrom_ok.
Qed.

Lemma getProductsPaginated_success_message_witness :
  ∃ r, getProductsPaginatedFrom sampleProducts 4 5 "office" = Ok r ∧
       PaginatedResponse.items r = [] ∧
       PaginatedResponse.success r = true ∧
       PaginatedResponse.message r = "Retrieved 0 products".
Proof.
  destruct (getProductsPaginated_success_message sampleProducts 4 5 "office")
    as [Hfields Hreturns].
  destruct Hreturns as [r Hr];
    [unfold gql_int; lia | unfold gql_int; lia | by vm_compute | lia | lia |].
  destruct (Hfields r Hr) as (Hs & Hm & _).
  exists r. split; [done |]. rewrite Hm, Hs.
  injection Hr as <-. by vm_compute.
Defined.

(** C1, at pageSize = 0: the page size reaches the totalPages division
    unchanged and the resolver panics there, for every page and category.
    A negative page size is not raised to 1 either: with page = 1 it panics
    in the slice expression, and with page = 0 it is returned as it came. *)
Theorem getProductsPaginated_pageSize_not_clamped
    (page : Z) (category : string) (w : World) :
  getProductsPaginated page 0 category w = Panic IntegerDivideByZero ∧
  getProductsPaginated 1 (-1) "" w = Panic SliceBoundsOutOfRange ∧
  ∃ r, getProductsPaginated 0 (-5) "" w = Ok (r, w) ∧
       PaginatedResponse.pageSize r = -5 ∧
       PaginatedResponse.totalPages r = 0.
Proof.
  split; [| split].
  - reflexivity.
  - reflexivity.
  - eexists. split; [reflexivity |]. by vm_compute.
Qed.

(** ** createUser *)

Lemma fmt_d_inj (x y : Z) : Go.fmt_d x = Go.fmt_d y → x = y.
Proof.
  unfold Go.fmt_d. intros Heq.
  assert (Hnn : ∀ z, Z.to_int z ≠ Decimal.Pos Decimal.Nil
                     ∧ Z.to_int z ≠ Decimal.Neg Decimal.Nil).
  { intros [|p|p]; split; cbn; try discriminate;
      intros [= Hp]; by apply DecimalPos.Unsigned.to_uint_nonnil in Hp. }
  apply DecimalZ.to_int_inj.
  destruct (Hnn x) as [Hx1 Hx2], (Hnn y) as [Hy1 Hy2].
  pose proof (NilZero.isi _ Hx1 Hx2) as Hx.
  pose proof (NilZero.isi _ Hy1 Hy2) as Hy.
  rewrite Heq in Hx. congruence.
Qed.

Lemma createUser_rejected (Format_RFC3339 : Time → string)
    (name email username : string) (w : World) :
  name = "" ∨ email = "" ∨ username = "" →
  createUser Format_RFC3339 name email username w
  = Ok (UserResponse.mk
          false "Name, email, and username are required" None
          (Some [ValidationError.mk
                   "VALIDATION_ERROR" "Missing required fields"
                   "name,email,username"
                   ["All fields are required for user creation"]]),
        w).
Proof.
  intros H. unfold createUser. by rewrite decide_True.
Qed.

Lemma createUser_accepted (Format_RFC3339 : Time → string)
    (name email username : string) (w : World) :
  name ≠ "" → email ≠ "" → username ≠ "" →
  createUser Format_RFC3339 name email username w
  = Ok (UserResponse.mk
          true "User created successfully"
          (Some (User.mk
                   ("user_" +:+ Go.fmt_d (time.Unix (clock w (ticks w))))
                   name email username None None true
                   (Format_RFC3339 (clock w (S (ticks w))))))
          None,
        mkWorld (clock w) (S (S (ticks w)))).
Proof.
  intros Hn He Hu. unfold createUser.
  rewrite decide_False by tauto. reflexivity.
Qed.

(** C4, as the code has it. Whenever createUser is invoked with at least one
    of name, email, username empty, it returns success = false with
    data = null and exactly one validation error whose code is
    "VALIDATION_ERROR", whose message is "Missing required fields" and whose
    field is the fixed string "name,email,username", whichever of the fields
    were missing; the clock is not read. *)
Theorem createUser_validation_error (Format_RFC3339 : Time → string)
    (name email username : string) (w : World) :
  name = "" ∨ email = "" ∨ username = "" →
  ∃ r e, createUser Format_RFC3339 name email username w = Ok (r, w) ∧
         UserResponse.success r = false ∧
         UserResponse.data r = None ∧
         UserResponse.errors r = Some [e] ∧
         ValidationError.code e = "VALIDATION_ERROR" ∧
         ValidationError.message e = "Missing required fields" ∧
         ValidationError.field e = "name,email,username".
Proof.
  intros H. do 2 eexists. split; [by apply createUser_rejected |].
  by cbn.
Qed.

Lemma createUser_validation_error_witness :
  ∃ r e, createUser time.Format_RFC3339_UTC "" "a@b.com" "bob" world_2023
           = Ok (r, world_2023) ∧
         UserResponse.errors r = Some [e] ∧
         ValidationError.field e = "name,email,username".
Proof.
  destruct (createUser_validation_error
              time.Format_RFC3339_UTC "" "a@b.com" "bob" world_2023)
    as (r & e & Hr & _ & _ & He & _ & _ & Hf); [by left |].
  by exists r, e.
Defined.

(** C4, as stated, fails when only the name is missing: the error's field is
    "name,email,username", not "name". *)
Lemma createUser_field_not_the_missing_names :
  joinComma (missingFields "" "a@b.com" "bob") = "name" ∧
  ∃ r, createUser time.Format_RFC3339_UTC "" "a@b.com" "bob" world_2023
         = Ok (r, world_2023) ∧
       ¬ reports_missing_fields "" "a@b.com" "bob" r.
Proof.
  split; [reflexivity |].
  eexists. split; [by apply createUser_rejected; left |].
  intros (_ & _ & e & [= <-] & _ & _ & Hfield). discriminate Hfield.
Qed.

(** C5. Every envelope returned by createUser, and one is returned for every
    input, satisfies the mutation-envelope invariant: success = false gives
    data = null and errors non-null, success = true gives errors = null and
    data non-null. *)
Theorem createUser_envelope_ok (Format_RFC3339 : Time → string)
    (name email username : string) (w : World) :
  ∃ r w', createUser Format_RFC3339 name email username w = Ok (r, w') ∧
          envelope_ok r.
Proof.
  destruct (decide (name = "" ∨ email = "" ∨ username = "")) as [H|H].
  - do 2 eexists. split; [by apply createUser_rejected |].
    split; cbn; [done | discriminate].
  - do 2 eexists. split; [apply createUser_accepted; tauto |].
    split; cbn; [discriminate | done].
Qed.

(** C10. Validation rejects only the empty string: whenever name, email and
    username are all non-empty, whatever they contain, createUser returns
    success = true with a data record that carries the given name, email and
    username unchanged and active = true. *)
Theorem createUser_echoes_input (Format_RFC3339 : Time → string)
    (name email username : string) (w : World) :
  name ≠ "" → email ≠ "" → username ≠ "" →
  ∃ r w' u, createUser Format_RFC3339 name email username w = Ok (r, w') ∧
            UserResponse.success r = true ∧
            UserResponse.errors r = None ∧
            UserResponse.data r = Some u ∧
            User.name u = name ∧
            User.email u = email ∧
            User.username u = username ∧
            User.active u = true.
Proof.
  intros Hn He Hu. do 3 eexists.
  split; [by apply createUser_accepted |]. by cbn.
Qed.

Lemma createUser_echoes_input_witness :
  ∃ r w' u, createUser time.Format_RFC3339_UTC " " "not an address" "  "
              world_2023 = Ok (r, w') ∧
            UserResponse.success r = true ∧
            UserResponse.data r = Some u ∧
            User.name u = " " ∧
            User.email u = "not an address" ∧
            User.username u = "  " ∧
            User.active u = true.
Proof.
  destruct (createUser_echoes_input
              time.Format_RFC3339_UTC " " "not an address" "  " world_2023)
    as (r & w' & u & Hr & Hs & _ & Hd & Hrest); [done | done | done |].
  by exists r, w', u.
Defined.

(** How the id is made. Whenever createUser is invoked with all three
    required fields non-empty, it returns success = true and a data record
    whose id is the non-empty string "user_" followed by the Unix time, in
    seconds, at which the call read the clock; so the ids of two sequential
    successful calls differ only when those two readings fall in different
    seconds. *)
Theorem createUser_ids (Format_RFC3339 : Time → string)
    (name1 email1 username1 name2 email2 username2 : string) (w : World) :
  name1 ≠ "" → email1 ≠ "" → username1 ≠ "" →
  name2 ≠ "" → email2 ≠ "" → username2 ≠ "" →
  let t1 := clock w (ticks w) in
  let t2 := clock w (S (S (ticks w))) in
  ∃ r1 w1 u1 r2 w2 u2,
    createUser Format_RFC3339 name1 email1 username1 w = Ok (r1, w1) ∧
    createUser Format_RFC3339 name2 email2 username2 w1 = Ok (r2, w2) ∧
    UserResponse.success r1 = true ∧ UserResponse.data r1 = Some u1 ∧
    UserResponse.success r2 = true ∧ UserResponse.data r2 = Some u2 ∧
    User.id u1 = "user_" +:+ Go.fmt_d (time.Unix t1) ∧ User.id u1 ≠ "" ∧
    User.id u2 = "user_" +:+ Go.fmt_d (time.Unix t2) ∧ User.id u2 ≠ "" ∧
    (User.id u1 ≠ User.id u2 ↔ time.Unix t1 ≠ time.Unix t2).
Proof.
  intros Hn1 He1 Hu1 Hn2 He2 Hu2 t1 t2. do 6 eexists.
  split; [by apply createUser_accepted |].
  split; [by apply createUser_accepted |].
  cbn [UserResponse.success UserResponse.data User.id clock ticks].
  repeat (split; [done |]).
  fold t1 t2. split.
  - intros Hne Heq. apply Hne. by rewrite Heq.
  - intros Hne [= Heq]. by apply Hne, fmt_d_inj.
Qed.

Lemma createUser_ids_witness :
  ∃ r1 w1 u1 r2 w2 u2,
    createUser time.Format_RFC3339_UTC "Ann" "ann@example.com" "ann"
      world_2023_slow = Ok (r1, w1) ∧
    createUser time.Format_RFC3339_UTC "Bob" "bob@example.com" "bob"
      w1 = Ok (r2, w2) ∧
    UserResponse.data r1 = Some u1 ∧ UserResponse.data r2 = Some u2 ∧
    User.id u1 = "user_1700000000" ∧
    User.id u2 = "user_1700000001" ∧
    User.id u1 ≠ User.id u2.
Proof.
  destruct (createUser_ids time.Format_RFC3339_UTC
              "Ann" "ann@example.com" "ann" "Bob" "bob@example.com" "bob"
              world_2023_slow)
    as (r1 & w1 & u1 & r2 & w2 & u2 & Hr1 & Hr2 & _ & Hd1 & _ & Hd2
        & Hid1 & _ & Hid2 & _ & Hne);
    [done .. |].
  exists r1, w1, u1, r2, w2, u2.
  do 4 (split; [done |]).
  split; [by rewrite Hid1 |]. split; [by rewrite Hid2 |].
  apply Hne. by vm_compute.
Defined.

(** C8, at two sequential calls within one second. Both calls have all three
    fields non-empty and both succeed; the second reads the clock 250 ms
    after the first, and both receive the id "user_1700000000": the id is
    taken from the clock at a resolution of one second, so it is not unique
    per call. *)
Lemma createUser_same_second_same_id :
  ∃ r1 w1 u1 r2 w2 u2,
    createUser time.Format_RFC3339_UTC "Ann" "ann@example.com" "ann"
      world_2023 = Ok (r1, w1) ∧
    createUser time.Format_RFC3339_UTC "Bob" "bob@example.com" "bob"
      w1 = Ok (r2, w2) ∧
    clock world_2023 0 < clock world_2023 2 ∧
    UserResponse.success r1 = true ∧ UserResponse.data r1 = Some u1 ∧
    UserResponse.success r2 = true ∧ UserResponse.data r2 = Some u2 ∧
    User.id u1 = "user_1700000000" ∧
    User.id u2 = "user_1700000000".
Proof.
  do 6 eexists.
  split; [by apply createUser_accepted |].
  split; [by apply createUser_accepted |].
  split; [by vm_compute |].
  repeat split; reflexivity.
Qed.

(** ** Further properties of getUsers *)

Lemma filterActive_Forall (users : list User.t) (activeFilter : bool) :
  Forall (λ user, User.active user = activeFilter)
         (filterActive users activeFilter).
Proof.
  rewrite filterActive_filter. apply Forall_forall.
  intros user Hin. by apply list_elem_of_filter in Hin as [? _].
Qed.

Lemma getUsersFrom_in_range (users : list User.t) (limit offset : Z)
    (activeFilter : bool) :
  0 ≤ offset → 0 ≤ limit → offset + limit ≤ GoInt.MaxInt →
  getUsersFrom users limit offset activeFilter
  = Ok (take (Z.to_nat limit)
          (drop (Z.to_nat offset)
             (filter (λ user, User.active user = activeFilter) users))).
Proof.
  intros. unfold getUsersFrom.
  by rewrite paginateUsers_window, filterActive_filter.
Qed.

(** X1. For a non-negative offset and limit, getUsers filters first and
    windows second: the result is the first [limit] of the matching users
    after skipping [offset] of them.  It holds at most [limit] users, they
    appear in the order of the collection, and each has the requested
    active status. *)
Theorem getUsersFrom_window (users : list User.t) (limit offset : Z)
    (activeFilter : bool) :
  0 ≤ offset → 0 ≤ limit → offset + limit ≤ GoInt.MaxInt →
  ∃ page,
    getUsersFrom users limit offset activeFilter = Ok page ∧
    page = take (Z.to_nat limit)
             (drop (Z.to_nat offset)
                (filter (λ user, User.active user = activeFilter) users)) ∧
    Go.len page ≤ limit ∧
    page `sublist_of` users ∧
    Forall (λ user, User.active user = activeFilter) page.
Proof.
  intros Ho Hl Hmax. eexists.
  split; [by apply getUsersFrom_in_range |]. split; [done |].
  split; [| split].
  - unfold Go.len. rewrite length_take. lia.
  - etrans; [apply sublist_take |].
    etrans; [apply sublist_drop | apply sublist_filter].
  - apply Forall_take, Forall_drop.
    rewrite <- filterActive_filter. apply filterActive_Forall.
Qed.

Lemma getUsersFrom_window_witness :
  ∃ page, getUsersFrom users_2023 1 1 true = Ok page ∧
          User.name <$> page = ["Bob Johnson"].
Proof.
  destruct (getUsersFrom_window users_2023 1 1 true)
    as (page & Hpage & -> & _); [lia | lia | by vm_compute |].
  eexists. split; [exact Hpage |]. by vm_compute.
Defined.

(** X2. An offset at or beyond the number of matching users is clamped to
    the end of the collection: the resolver returns the empty list, it does
    not panic. *)
Theorem getUsersFrom_offset_past_end (users : list User.t) (limit offset : Z)
    (activeFilter : bool) :
  Go.len (filter (λ user, User.active user = activeFilter) users) ≤ offset →
  0 ≤ limit → offset + limit ≤ GoInt.MaxInt →
  getUsersFrom users limit offset activeFilter = Ok [].
Proof.
  intros Hlen Hl Hmax.
  pose proof (len_nonneg (filter (λ user, User.active user = activeFilter) users)).
  rewrite getUsersFrom_in_range by lia.
  unfold Go.len in *. rewrite drop_ge by lia. by rewrite take_nil.
Qed.

Lemma getUsersFrom_offset_past_end_witness :
  getUsersFrom users_2023 10 2 true = Ok [] ∧
  getUsersFrom users_2023 10 1000 false = Ok [].
Proof.
  split.
  - apply (getUsersFrom_offset_past_end users_2023 10 2 true);
      [by vm_compute | lia | by vm_compute].
  - apply (getUsersFrom_offset_past_end users_2023 10 1000 false);
      [by vm_compute | lia | by vm_compute].
Defined.

(** X3. Two consecutive windows are the two halves of the window that
    spans them: asking for [limit1] users at [offset] and then for [limit2]
    users at [offset + limit1] returns, put together, what one request for
    [limit1 + limit2] users at [offset] returns. *)
Theorem getUsersFrom_consecutive_windows (users : list User.t)
    (limit1 limit2 offset : Z) (activeFilter : bool) :
  0 ≤ offset → 0 ≤ limit1 → 0 ≤ limit2 →
  offset + limit1 + limit2 ≤ GoInt.MaxInt →
  ∃ page1 page2,
    getUsersFrom users limit1 offset activeFilter = Ok page1 ∧
    getUsersFrom users limit2 (offset + limit1) activeFilter = Ok page2 ∧
    getUsersFrom users (limit1 + limit2) offset activeFilter
      = Ok (page1 ++ page2).
Proof.
  intros Ho Hl1 Hl2 Hmax. do 2 eexists.
  split; [apply getUsersFrom_in_range; lia |].
  split; [apply getUsersFrom_in_range; lia |].
  rewrite getUsersFrom_in_range by lia. f_equal.
  rewrite !Z2Nat.inj_add by lia.
  rewrite <- (drop_drop _ (Z.to_nat limit1) (Z.to_nat offset)).
  by rewrite take_take_drop.
Qed.

Lemma getUsersFrom_consecutive_windows_witness :
  ∃ page1 page2,
    getUsersFrom users_2023 1 0 true = Ok page1 ∧
    getUsersFrom users_2023 5 1 true = Ok page2 ∧
    User.id <$> page1 = ["1"] ∧ User.id <$> page2 = ["3"] ∧
    getUsersFrom users_2023 6 0 true = Ok (page1 ++ page2).
Proof.
  destruct (getUsersFrom_consecutive_windows users_2023 1 5 0 true)
    as (page1 & page2 & H1 & H2 & H12); [lia | lia | lia | by vm_compute |].
  exists page1, page2. repeat split; try done.
  - revert H1. vm_compute. by intros [= <-].
  - revert H2. vm_compute. by intros [= <-].
Defined.

(** X4. The active filter splits the collection: the users it keeps for
    [true] together with those it keeps for [false] are the whole
    collection, each user once. *)
Theorem filterActive_partition (users : list User.t) :
  filterActive users true ++ filterActive users false ≡ₚ users ∧
  (length (filterActive users true) + length (filterActive users false)
   = length users)%nat.
Proof.
  assert (Hperm : filterActive users true ++ filterActive users false ≡ₚ users).
  { rewrite !filterActive_filter.
    induction users as [|user users IH]; [done |].
    rewrite !filter_cons.
    destruct (User.active user) eqn:Hactive.
    - rewrite decide_True, decide_False by done. cbn. by rewrite IH.
    - rewrite decide_False, decide_True by done.
      rewrite <- Permutation_middle. by rewrite IH. }
  split; [done |].
  by rewrite <- (Permutation_length Hperm), length_app.
Qed.

(** ** Further properties of getProductsPaginated *)

(** X5. Whatever the category, the category filter only drops products: what
    it returns is a subsequence of the catalogue, so no product is repeated
    (also when the category occurs twice among a product's categories) or
    moved.  Filtering the result again by the same category changes
    nothing. *)
Theorem filterByCategory_sublist (allProducts : list Product.t)
    (category : string) :
  filterByCategory allProducts category `sublist_of` allProducts ∧
  filterByCategory (filterByCategory allProducts category) category
    = filterByCategory allProducts category.
Proof.
  destruct (decide (category = "")) as [->|Hc].
  - done.
  - rewrite !filterByCategory_filter by done. split.
    + apply sublist_filter.
    + rewrite list_filter_filter. apply list_filter_iff. tauto.
Qed.

(** X6. For a page size above zero and a page from 1 on, the items of the
    envelope are the summaries of the products at positions
    [(page-1)*pageSize] up to, but not including, [page*pageSize] of the
    filtered catalogue; their number is [pageSize] cut down to what is left
    from that position; pageSize and currentPage repeat the arguments. *)
Theorem getProductsPaginated_items (allProducts : list Product.t)
    (page pageSize : Z) (category : string) :
  gql_int page → gql_int pageSize → Go.len allProducts < MaxSliceLen →
  pageSize > 0 → 1 ≤ page →
  ∃ r, getProductsPaginatedFrom allProducts page pageSize category = Ok r ∧
       let filteredProducts := filterByCategory allProducts category in
       let N := Go.len filteredProducts in
       PaginatedResponse.items r
         = itemString <$> take (Z.to_nat pageSize)
                            (drop (Z.to_nat ((page - 1) * pageSize))
                               filteredProducts) ∧
       Go.len (PaginatedResponse.items r)
         = Z.min pageSize (Z.max 0 (N - (page - 1) * pageSize)) ∧
       PaginatedResponse.pageSize r = pageSize ∧
       PaginatedResponse.currentPage r = page.
Proof.
  intros Hpage Hsize Hlen Hpos Hfirst. eexists.
  split; [by apply getProductsPaginatedFrom_ok |].
  cbn. repeat split.
  unfold Go.len. rewrite length_fmap, length_take, length_drop.
  assert (0 ≤ (page - 1) * pageSize) by nia.
  set (offset := (page - 1) * pageSize) in *. lia.
Qed.

Lemma getProductsPaginated_items_witness :
  ∃ r, getProductsPaginatedFrom sampleProducts 2 2 "" = Ok r ∧
       PaginatedResponse.items r = ["Book - Programming book ($29.99)"] ∧
       Go.len (PaginatedResponse.items r) = 1.
Proof.
  destruct (getProductsPaginated_items sampleProducts 2 2 "")
    as (r & Hr & Hitems & Hlen & _);
    [unfold gql_int; lia | unfold gql_int; lia | by vm_compute | lia | lia |].
  exists r. split; [done |]. rewrite Hlen, Hitems. by vm_compute.
Defined.

(** X7. hasNextPage tells whether products remain after the page: it is
    true exactly when [page * pageSize] is below the number of filtered
    products. *)
Theorem getProductsPaginated_hasNextPage (allProducts : list Product.t)
    (page pageSize : Z) (category : string) :
  gql_int page → gql_int pageSize → Go.len allProducts < MaxSliceLen →
  pageSize > 0 → 1 ≤ page →
  ∃ r, getProductsPaginatedFrom allProducts page pageSize category = Ok r ∧
       (PaginatedResponse.hasNextPage r = true
        ↔ page * pageSize < Go.len (filterByCategory allProducts category)).
Proof.
  intros Hpage Hsize Hlen Hpos Hfirst. eexists.
  split; [by apply getProductsPaginatedFrom_ok |].
  cbn. rewrite bool_decide_eq_true.
  destruct (ceil_div_bounds
              (Go.len (filterByCategory allProducts category)) pageSize
              ltac:(lia)) as [Hlo Hhi].
  split; intros; nia.
Qed.

Lemma getProductsPaginated_hasNextPage_witness :
  ∃ r, getProductsPaginatedFrom sampleProducts 1 2 "" = Ok r ∧
       PaginatedResponse.hasNextPage r = true.
Proof.
  destruct (getProductsPaginated_hasNextPage sampleProducts 1 2 "")
    as (r & Hr & Hnext);
    [unfold gql_int; lia | unfold gql_int; lia | by vm_compute | lia | lia |].
  exists r. split; [done |]. apply Hnext. by vm_compute.
Defined.

(** X8. A page beyond the last one is not an error: the envelope has no
    items, says "Retrieved 0 products", has hasNextPage = false and still
    reports the true totalCount and totalPages. *)
Theorem getProductsPaginated_beyond_last_page (allProducts : list Product.t)
    (page pageSize : Z) (category : string) :
  gql_int page → gql_int pageSize → Go.len allProducts < MaxSliceLen →
  pageSize > 0 → 1 ≤ page →
  ceil_div (Go.len (filterByCategory allProducts category)) pageSize < page →
  ∃ r, getProductsPaginatedFrom allProducts page pageSize category = Ok r ∧
       PaginatedResponse.items r = [] ∧
       PaginatedResponse.message r = "Retrieved 0 products" ∧
       PaginatedResponse.hasNextPage r = false ∧
       PaginatedResponse.totalCount r
         = Go.len (filterByCategory allProducts category) ∧
       PaginatedResponse.totalPages r
         = ceil_div (Go.len (filterByCategory allProducts category)) pageSize.
Proof.
  intros Hpage Hsize Hlen Hpos Hfirst Hbeyond. eexists.
  split; [by apply getProductsPaginatedFrom_ok |].
  destruct (ceil_div_bounds
              (Go.len (filterByCategory allProducts category)) pageSize
              ltac:(lia)) as [Hlo Hhi].
  cbn. unfold Go.len in *.
  rewrite drop_ge by nia. rewrite take_nil. cbn.
  repeat split. by rewrite bool_decide_eq_false_2 by lia.
Qed.

Lemma getProductsPaginated_beyond_last_page_witness :
  ∃ r, getProductsPaginatedFrom sampleProducts 3 2 "" = Ok r ∧
       PaginatedResponse.items r = [] ∧
       PaginatedResponse.totalCount r = 3 ∧
       PaginatedResponse.totalPages r = 2.
Proof.
  destruct (getProductsPaginated_beyond_last_page sampleProducts 3 2 "")
    as (r & Hr & Hitems & _ & _ & Hcount & Hpages);
    [unfold gql_int; lia | unfold gql_int; lia | by vm_compute | lia | lia
    | by vm_compute |].
  exists r. split; [done |]. rewrite Hitems, Hcount, Hpages. by vm_compute.
Defined.

(** X9. A page number of zero or below, with a page size above zero, makes
    the resolver panic: the offset [(page-1)*pageSize] is negative, passes
    the test [offset < total] and becomes the lower bound of the slice. *)
Theorem getProductsPaginated_page_below_one_panics
    (allProducts : list Product.t) (page pageSize : Z) (category : string) :
  gql_int page → gql_int pageSize → Go.len allProducts < MaxSliceLen →
  pageSize > 0 → page ≤ 0 →
  getProductsPaginatedFrom allProducts page pageSize category
  = Panic SliceBoundsOutOfRange.
Proof.
  unfold gql_int, MaxSliceLen. intros Hpage Hsize Hlen Hpos Hzero.
  pose proof (filterByCategory_length allProducts category) as Hle.
  pose proof (len_nonneg (filterByCategory allProducts category)) as HN.
  unfold getProductsPaginatedFrom.
  set (filteredProducts := filterByCategory allProducts category) in *.
  set (total := Go.len filteredProducts) in *.
  unfold GoInt.add, GoInt.sub, GoInt.mul, Go.div.
  rewrite (wrap_id (page - 1))
    by (unfold GoInt.in_range, GoInt.MinInt, GoInt.MaxInt; lia).
  rewrite (wrap_id ((page - 1) * pageSize))
    by (unfold GoInt.in_range, GoInt.MinInt, GoInt.MaxInt; nia).
  rewrite decide_False by lia.
  unfold mbind, result_bind, pageItemsOf. fold total.
  rewrite decide_True by nia.
  rewrite slice_negative_low by nia. done.
Qed.

Lemma getProductsPaginated_page_below_one_panics_witness :
  getProductsPaginatedFrom sampleProducts 0 5 "" = Panic SliceBoundsOutOfRange.
Proof.
  apply (getProductsPaginated_page_below_one_panics sampleProducts 0 5 "");
    [unfold gql_int; lia | unfold gql_int; lia | by vm_compute | lia | lia].
Defined.

(** X17. When something matches, every page before the last is full and
    the last page is not empty: a page below totalPages has exactly pageSize
    items, and page totalPages has at least one and at most pageSize. *)
Theorem getProductsPaginated_page_sizes (allProducts : list Product.t)
    (page pageSize : Z) (category : string) :
  gql_int page → gql_int pageSize → Go.len allProducts < MaxSliceLen →
  pageSize > 0 → 1 ≤ page →
  ∃ r, getProductsPaginatedFrom allProducts page pageSize category = Ok r ∧
       (page < PaginatedResponse.totalPages r →
        Go.len (PaginatedResponse.items r) = pageSize) ∧
       (page = PaginatedResponse.totalPages r →
        1 ≤ Go.len (PaginatedResponse.items r) ≤ pageSize).
Proof.
  intros Hpage Hsize Hlen Hpos Hfirst. eexists.
  split; [by apply getProductsPaginatedFrom_ok |].
  destruct (ceil_div_bounds
              (Go.len (filterByCategory allProducts category)) pageSize
              ltac:(lia)) as [Hlo Hhi].
  cbn. unfold Go.len in *.
  rewrite length_fmap, length_take, length_drop.
  assert (0 ≤ (page - 1) * pageSize) by nia.
  set (offset := (page - 1) * pageSize) in *.
  set (T := ceil_div _ _) in *.
  split; intros HT.
  - assert (page * pageSize ≤ (T - 1) * pageSize) by nia. lia.
  - subst page. lia.
Qed.

Lemma getProductsPaginated_page_sizes_witness :
  (∃ r, getProductsPaginatedFrom sampleProducts 1 2 "" = Ok r ∧
        Go.len (PaginatedResponse.items r) = 2) ∧
  (∃ r, getProductsPaginatedFrom sampleProducts 2 2 "" = Ok r ∧
        1 ≤ Go.len (PaginatedResponse.items r) ≤ 2).
Proof.
  split.
  - destruct (getProductsPaginated_page_sizes sampleProducts 1 2 "")
      as (r & Hr & Hfull & _);
      [unfold gql_int; lia | unfold gql_int; lia | by vm_compute | lia | lia |].
    exists r. split; [done |]. apply Hfull.
    injection Hr as <-. by vm_compute.
  - destruct (getProductsPaginated_page_sizes sampleProducts 2 2 "")
      as (r & Hr & _ & Hlast);
      [unfold gql_int; lia | unfold gql_int; lia | by vm_compute | lia | lia |].
    exists r. split; [done |]. apply Hlast.
    injection Hr as <-. by vm_compute.
Defined.

Lemma concat_pages {A B} (g : A → B) (l : list A) (p T : nat) :
  concat ((λ k, g <$> take p (drop (k * p) l)) <$> seq 0 T)
  = g <$> take (T * p) l.
Proof.
  induction T as [|T IH]; [done |].
  rewrite seq_S, fmap_app, concat_app, IH. cbn [fmap list_fmap concat].
  rewrite app_nil_r, <- fmap_app, take_take_drop.
  do 2 f_equal. lia.
Qed.

Lemma ceil_div_range (n d : Z) : 0 ≤ n → 0 < d → 0 ≤ ceil_div n d ≤ n.
Proof.
  intros Hn Hd. destruct (ceil_div_bounds n d Hd) as [Hlo Hhi].
  split; [nia |]. apply ceil_div_least; [done | nia].
Qed.

(** X10. Walking the pages 1, 2, ..., totalPages with one page size visits
    the whole filtered catalogue: every one of these requests returns, and
    the items of the pages, put one after the other, are the summaries of
    all filtered products, each once and in order. *)
Theorem getProductsPaginated_pages_cover (allProducts : list Product.t)
    (pageSize : Z) (category : string) :
  gql_int pageSize → pageSize > 0 → Go.len allProducts < 2 ^ 31 →
  let filteredProducts := filterByCategory allProducts category in
  let totalPages := ceil_div (Go.len filteredProducts) pageSize in
  ∃ pages : list (list string),
    Z.of_nat (length pages) = totalPages ∧
    (∀ (k : nat) (its : list string),
       pages !! k = Some its →
       ∃ r, getProductsPaginatedFrom allProducts (Z.of_nat k + 1) pageSize
              category = Ok r ∧
            PaginatedResponse.items r = its) ∧
    concat pages = itemString <$> filteredProducts.
Proof.
  intros Hsize Hpos Hlen filteredProducts totalPages.
  pose proof (filterByCategory_length allProducts category) as Hle.
  pose proof (len_nonneg filteredProducts) as HN.
  fold filteredProducts in Hle.
  destruct (ceil_div_range (Go.len filteredProducts) pageSize) as [HT0 HTN];
    [done | lia |].
  destruct (ceil_div_bounds (Go.len filteredProducts) pageSize) as [_ Hhi];
    [lia |].
  fold totalPages in HT0, HTN, Hhi.
  exists ((λ k, itemString <$> take (Z.to_nat pageSize)
                                (drop (k * Z.to_nat pageSize) filteredProducts))
            <$> seq 0 (Z.to_nat totalPages)).
  split; [| split].
  - rewrite length_fmap, length_seq. lia.
  - intros k its Hk.
    apply list_lookup_fmap_Some in Hk as (k' & -> & Hk).
    apply lookup_seq in Hk as [-> Hk]. cbn.
    eexists. split.
    + apply getProductsPaginatedFrom_ok;
        [unfold gql_int in *; lia | done | unfold MaxSliceLen; lia | done | lia].
    + cbn. fold filteredProducts. do 3 f_equal. nia.
  - rewrite concat_pages. f_equal. apply take_ge.
    unfold Go.len in *. nia.
Qed.

Lemma getProductsPaginated_pages_cover_witness :
  ∃ pages : list (list string),
    pages = [["Laptop - High-performance laptop ($999.99)";
              "Coffee Mug - Ceramic coffee mug ($12.99)"];
             ["Book - Programming book ($29.99)"]] ∧
    concat pages = itemString <$> sampleProducts.
Proof.
  destruct (getProductsPaginated_pages_cover sampleProducts 2 "")
    as (pages & Hn & Hk & Hcat);
    [unfold gql_int; lia | lia | by vm_compute |].
  exists pages. split; [| exact Hcat].
  assert (Hlen : length pages = 2%nat).
  { apply Nat2Z.inj. rewrite Hn. by vm_compute. }
  destruct pages as [|p1 [|p2 [|p3 pages]]]; try discriminate Hlen.
  destruct (Hk 0%nat p1 eq_refl) as (r1 & Hr1 & <-).
  destruct (Hk 1%nat p2 eq_refl) as (r2 & Hr2 & <-).
  revert Hr1 Hr2. vm_compute. by intros [= <-] [= <-].
Defined.

(** X11. A category that no product carries gives an empty first page, not
    an error: totalCount and totalPages are 0, there are no items and no
    next page. *)
Theorem getProductsPaginated_unknown_category (allProducts : list Product.t)
    (page pageSize : Z) (category : string) :
  gql_int page → gql_int pageSize → Go.len allProducts < MaxSliceLen →
  pageSize > 0 → 1 ≤ page →
  category ≠ "" →
  (∀ product, product ∈ allProducts → category ∉ Product.categories product) →
  getProductsPaginatedFrom allProducts page pageSize category
  = Ok (PaginatedResponse.mk [] 0 pageSize page 0 false
          (bool_decide (page > 1)) true "Retrieved 0 products").
Proof.
  intros Hpage Hsize Hlen Hpos Hfirst Hc Hnone.
  rewrite getProductsPaginatedFrom_ok by done.
  assert (Hempty : filterByCategory allProducts category = []).
  { rewrite filterByCategory_filter by done.
    apply elem_of_nil_inv. intros product [? ?]%list_elem_of_filter.
    by eapply Hnone. }
  assert (Hzero : ceil_div 0 pageSize = 0).
  { unfold ceil_div. cbn. by rewrite Z.div_0_l by lia. }
  rewrite Hempty. rewrite drop_nil, take_nil.
  change (Go.len (@nil Product.t)) with 0. rewrite Hzero.
  by rewrite (bool_decide_eq_false_2 (page < 0)) by lia.
Qed.

Lemma getProductsPaginated_unknown_category_witness :
  getProductsPaginatedFrom sampleProducts 1 5 "garden"
  = Ok (PaginatedResponse.mk [] 0 5 1 0 false false true
          "Retrieved 0 products").
Proof.
  apply (getProductsPaginated_unknown_category sampleProducts 1 5 "garden");
    [unfold gql_int; lia | unfold gql_int; lia | by vm_compute | lia | lia
    | done |].
  intros product Hin Hcat.
  repeat (apply elem_of_cons in Hin as [->|Hin];
          [by repeat (apply elem_of_cons in Hcat as [Hcat|Hcat];
                      [discriminate Hcat |]); apply elem_of_nil in Hcat |]).
  by apply elem_of_nil in Hin.
Defined.

(** ** createUser, both ways *)

(** X12. createUser succeeds exactly when name, email and username are all
    non-empty.  A rejected call does not read the clock; an accepted one
    reads it twice, once for the id and once for createdAt. *)
Theorem createUser_success_iff (Format_RFC3339 : Time → string)
    (name email username : string) (w : World) :
  ∃ r w',
    createUser Format_RFC3339 name email username w = Ok (r, w') ∧
    (UserResponse.success r = true
     ↔ name ≠ "" ∧ email ≠ "" ∧ username ≠ "") ∧
    clock w' = clock w ∧
    ticks w' = (ticks w + if UserResponse.success r then 2 else 0)%nat.
Proof.
  destruct (decide (name = "" ∨ email = "" ∨ username = "")) as [H|H].
  - do 2 eexists. split; [by apply createUser_rejected |].
    cbn. split; [| split; [done | lia]].
    split; [done | tauto].
  - do 2 eexists. split; [apply createUser_accepted; tauto |].
    cbn. split; [| split; [done | lia]].
    split; [tauto | done].
Qed.

(** ** Strings and range loops *)

Lemma append_assoc (s1 s2 s3 : string) :
  (s1 +:+ s2) +:+ s3 = s1 +:+ (s2 +:+ s3).
Proof.
  induction s1 as [|a s1 IH]; [done |].
  change (String a ((s1 +:+ s2) +:+ s3) = String a (s1 +:+ (s2 +:+ s3))).
  by rewrite IH.
Qed.

Lemma append_nil_r (s : string) : s +:+ "" = s.
Proof.
  induction s as [|a s IH]; [done |].
  change (String a (s +:+ "") = String a s). by rewrite IH.
Qed.

(** A loop that writes one line per element writes the lines one after the
    other. *)
Lemma range_from_lines {A} (body : Z → A → string → string)
    (line : Z → A → string) (s : list A) (start : Z) (result : string) :
  (∀ k x st, (k < length s)%nat →
             body (start + Z.of_nat k) x st = st +:+ line (start + Z.of_nat k) x) →
  range_from body start s result
  = result +:+ joinLines (imap (λ k x, line (start + Z.of_nat k) x) s).
Proof.
  revert start result.
  induction s as [|x s IH]; intros start result Hbody.
  - cbn. by rewrite append_nil_r.
  - cbn [range_from imap joinLines foldr].
    pose proof (Hbody 0%nat x result ltac:(cbn; lia)) as H0.
    rewrite Z.add_0_r in H0. rewrite H0, Z.add_0_r.
    rewrite IH.
    + rewrite append_assoc. do 2 f_equal.
      unfold joinLines. f_equal. apply imap_ext.
      intros k y _. cbn. f_equal. lia.
    + intros k y st Hk.
      replace (start + 1 + Z.of_nat k) with (start + Z.of_nat (S k)) by lia.
      apply Hbody. cbn. lia.
Qed.

(** A loop that writes the elements with a separator after all but the last
    writes them joined by the separator. *)
Lemma range_from_joined {A} (f : A → string) (sep : string) (n : Z)
    (s : list A) (start : Z) (result : string) :
  start + Go.len s = n →
  range_from (λ i x result,
                let result := result +:+ f x in
                if decide (i < n - 1) then result +:+ sep else result)
             start s result
  = result +:+ String.concat sep (f <$> s).
Proof.
  revert start result.
  induction s as [|x s IH]; intros start result Hn.
  - cbn. by rewrite append_nil_r.
  - cbn [range_from]. unfold Go.len in *. cbn [length] in Hn.
    rewrite IH by lia. destruct s as [|y s]; cbn [length] in Hn.
    + cbn. rewrite decide_False by lia. by rewrite append_nil_r.
    + rewrite decide_True by lia.
      rewrite !append_assoc. reflexivity.
Qed.

Lemma sub_one_len {A} (s : list A) :
  Go.len s < MaxSliceLen → GoInt.sub (Go.len s) 1 = Go.len s - 1.
Proof.
  intros Hlen. pose proof (len_nonneg s). unfold MaxSliceLen in Hlen.
  apply wrap_id. unfold GoInt.in_range, GoInt.MinInt, GoInt.MaxInt. lia.
Qed.

Lemma add_one_index {A} (s : list A) (k : nat) :
  Go.len s < MaxSliceLen → (k < length s)%nat →
  GoInt.add (0 + Z.of_nat k) 1 = Z.of_nat k + 1.
Proof.
  intros Hlen Hk. unfold Go.len, MaxSliceLen in Hlen.
  rewrite Z.add_0_l.
  apply wrap_id. unfold GoInt.in_range, GoInt.MinInt, GoInt.MaxInt. lia.
Qed.

(** ** customHelloRESTHandler *)

Lemma string_or_default (args : gmap string Value) (key fallback : string) :
  fallback ≠ "" →
  ∃ v,
    match args !! key with
    | Some (VString arg) => if decide (arg ≠ "") then arg else fallback
    | _ => fallback
    end = v ∧
    v ≠ "" ∧
    (args !! key = Some (VString v) ∨
     v = fallback ∧ ∀ s, args !! key = Some (VString s) → s = "").
Proof.
  intros Hfallback.
  destruct (args !! key) as [[| arg | | | | | | |]|];
    try (eexists; split; [reflexivity |]; split; [done |];
         right; split; [done |]; intros s Hs; discriminate Hs).
  destruct (decide (arg ≠ "")) as [Harg|Harg].
  - exists arg. split; [done |]. split; [done |]. by left.
  - exists fallback. split; [done |]. split; [done |].
    right. split; [done |]. intros s [= <-].
    by destruct (decide (arg = "")).
Qed.

(** X13. The greeting is "<message>, <name>! (SDK Version)", where each of
    the two parts is the argument of that name when it is a non-empty
    string and the default ("Hello", "World") when it is absent, empty or
    not a string; so neither part is ever empty.  No other key of the
    arguments has any influence. *)
Theorem customHelloRESTHandler_defaults (args : gmap string Value) :
  (∃ message name,
     CustomHello.greeting (customHelloRESTHandler args)
       = message +:+ ", " +:+ name +:+ "! (SDK Version)" ∧
     message ≠ "" ∧ name ≠ "" ∧
     (args !! "message" = Some (VString message) ∨
      message = "Hello" ∧
      ∀ s, args !! "message" = Some (VString s) → s = "") ∧
     (args !! "name" = Some (VString name) ∨
      name = "World" ∧
      ∀ s, args !! "name" = Some (VString s) → s = "")) ∧
  (∀ key value, key ≠ "name" → key ≠ "message" →
     customHelloRESTHandler (<[key := value]> args)
     = customHelloRESTHandler args).
Proof.
  split.
  - destruct (string_or_default args "message" "Hello" ltac:(done))
      as (message & Hm & Hm0 & Hm1).
    destruct (string_or_default args "name" "World" ltac:(done))
      as (name & Hn & Hn0 & Hn1).
    exists message, name. unfold customHelloRESTHandler.
    cbv zeta. rewrite Hm, Hn. done.
  - intros key value Hname Hmessage. unfold customHelloRESTHandler.
    by rewrite !lookup_insert_ne by done.
Qed.

(** ** processComplexDataResolver *)

Lemma append_nil_l (s : string) : "" +:+ s = s.
Proof. reflexivity. Qed.

Lemma writeTags_joined (args : gmap string Value) (result : string) :
  (∀ tagSlice, args !! "tags" = Some (VStrings tagSlice) →
               Go.len tagSlice < MaxSliceLen) →
  writeTags args result
  = result +:+
    match args !! "tags" with
    | Some (VStrings tagSlice) =>
        "Tags: " +:+ String.concat ", " tagSlice +:+ nl
    | _ => ""
    end.
Proof.
  intros Hlen. unfold writeTags.
  destruct (args !! "tags") as [[| | | | tagSlice | | | |]|];
    try (by rewrite append_nil_r).
  rewrite sub_one_len by auto. unfold range.
  rewrite (range_from_joined (λ tag, tag) ", " (Go.len tagSlice)) by lia.
  rewrite list_fmap_id. by rewrite !append_assoc.
Qed.

Lemma writeNumbers_joined (args : gmap string Value) (result : string) :
  (∀ numberSlice, args !! "numbers" = Some (VInts numberSlice) →
                  Go.len numberSlice < MaxSliceLen) →
  writeNumbers args result
  = result +:+
    match args !! "numbers" with
    | Some (VInts numberSlice) =>
        "Numbers: " +:+ String.concat ", " (Go.fmt_d <$> numberSlice) +:+ nl
    | _ => ""
    end.
Proof.
  intros Hlen. unfold writeNumbers.
  destruct (args !! "numbers") as [[| | | | | numberSlice | | |]|];
    try (by rewrite append_nil_r).
  rewrite sub_one_len by auto. unfold range.
  rewrite (range_from_joined Go.fmt_d ", " (Go.len numberSlice)) by lia.
  by rewrite !append_assoc.
Qed.

(** X14. When the SDK finds no user object and no users or optionalUsers
    array, the response is the header line followed by the tags, joined by
    ", " on one line, if the argument "tags" holds a []string, and by the
    numbers, in decimal and joined the same way, if "numbers" holds a []int.
    There is no separator after the last element; an empty slice still gives
    its line; a value of another type gives none. *)
Theorem processComplexData_tags_numbers
    (ParseArgsForResolver : string → gmap string Value → gmap string Value)
    (GetObjectArg : gmap string Value → string → gmap string Value)
    (GetArrayArg : gmap string Value → string → list Value)
    (GetIntArg : gmap string Value → string → list Z → Z)
    (GetStringArg : gmap string Value → string → list string → string)
    (GetBoolArg : gmap string Value → string → list bool → bool)
    (rawArgs : gmap string Value) :
  let args := ParseArgsForResolver "processComplexData" rawArgs in
  size (GetObjectArg args "user") = 0%nat →
  GetArrayArg args "users" = [] →
  GetArrayArg args "optionalUsers" = [] →
  (∀ tagSlice, args !! "tags" = Some (VStrings tagSlice) →
               Go.len tagSlice < MaxSliceLen) →
  (∀ numberSlice, args !! "numbers" = Some (VInts numberSlice) →
                  Go.len numberSlice < MaxSliceLen) →
  processComplexDataResolver ParseArgsForResolver GetObjectArg GetArrayArg
    GetIntArg GetStringArg GetBoolArg rawArgs
  = "Processing complex data (SDK Version with Auto-Parsing):" +:+ nl +:+
    match args !! "tags" with
    | Some (VStrings tagSlice) =>
        "Tags: " +:+ String.concat ", " tagSlice +:+ nl
    | _ => ""
    end +:+
    match args !! "numbers" with
    | Some (VInts numberSlice) =>
        "Numbers: " +:+ String.concat ", " (Go.fmt_d <$> numberSlice) +:+ nl
    | _ => ""
    end.
Proof.
  intros args Huser Husers Hoptional Htags Hnumbers.
  unfold processComplexDataResolver. fold args.
  unfold writeOptionalUsers, writeUsers, writeUser.
  rewrite Huser, Husers, Hoptional. cbn [decide_rel].
  rewrite !(decide_False (P := _ > 0)) by (unfold Go.len; cbn [length]; lia).
  rewrite writeNumbers_joined, writeTags_joined by done.
  rewrite append_nil_l. by rewrite !append_assoc.
Qed.

Lemma processComplexData_tags_numbers_witness :
  processComplexDataResolver SpecSDK.ParseArgsForResolver SpecSDK.GetObjectArg
    SpecSDK.GetArrayArg SpecSDK.GetIntArg SpecSDK.GetStringArg
    SpecSDK.GetBoolArg
    (<["tags" := VStrings ["go"; "plugin"; "sdk"]]>
       (<["numbers" := VInts [3; -7]]> (<["users" := VString "none"]> ∅)))
  = "Processing complex data (SDK Version with Auto-Parsing):" +:+ nl +:+
    "Tags: go, plugin, sdk" +:+ nl +:+ "Numbers: 3, -7" +:+ nl.
Proof.
  etrans; [apply processComplexData_tags_numbers |].
  - by vm_compute.
  - by vm_compute.
  - by vm_compute.
  - intros tagSlice Htags. vm_compute in Htags.
    injection Htags as <-. by vm_compute.
  - intros numberSlice Hnumbers. vm_compute in Hnumbers.
    injection Hnumbers as <-. by vm_compute.
  - by vm_compute.
Defined.

(** X15. The users and optionalUsers sections list the array one element per
    line, each numbered by its position in the array counted from 1.  An
    element that is an object gives its line; in optionalUsers a nil element
    gives a "null" line; any other element gives no line, and the numbers of
    the elements after it are not moved up.  An empty array gives no section
    at all. *)
Theorem processComplexData_user_lists
    (GetArrayArg : gmap string Value → string → list Value)
    (GetIntArg : gmap string Value → string → list Z → Z)
    (GetStringArg : gmap string Value → string → list string → string)
    (args : gmap string Value) (result : string) :
  Go.len (GetArrayArg args "users") < MaxSliceLen →
  Go.len (GetArrayArg args "optionalUsers") < MaxSliceLen →
  writeUsers GetArrayArg GetIntArg GetStringArg args result
  = result +:+
    match GetArrayArg args "users" with
    | [] => ""
    | users =>
        "Users:" +:+ nl +:+
        joinLines
          (imap (λ k user,
                   match user with
                   | VMap userMap =>
                       "  User " +:+ Go.fmt_d (Z.of_nat k + 1) +:+ ": ID=" +:+
                       Go.fmt_d (GetIntArg userMap "id" []) +:+ " Name=" +:+
                       GetStringArg userMap "name" [] +:+ " Email=" +:+
                       GetStringArg userMap "email" [] +:+ nl
                   | _ => ""
                   end) users)
    end ∧
  writeOptionalUsers GetArrayArg GetStringArg args result
  = result +:+
    match GetArrayArg args "optionalUsers" with
    | [] => ""
    | optionalUsers =>
        "Optional Users:" +:+ nl +:+
        joinLines
          (imap (λ k user,
                   match user with
                   | VNil =>
                       "  Optional User " +:+ Go.fmt_d (Z.of_nat k + 1) +:+
                       ": null" +:+ nl
                   | VMap userMap =>
                       "  Optional User " +:+ Go.fmt_d (Z.of_nat k + 1) +:+
                       ": Name=" +:+ GetStringArg userMap "name" [] +:+
                       " Email=" +:+ GetStringArg userMap "email" [] +:+ nl
                   | _ => ""
                   end) optionalUsers)
    end.
Proof.
  intros Husers Hoptional. split.
  - unfold writeUsers.
    destruct (GetArrayArg args "users") as [|user users] eqn:Heq.
    { rewrite decide_False by (unfold Go.len; cbn [length]; lia).
      by rewrite append_nil_r. }
    rewrite decide_True by (unfold Go.len; cbn [length]; lia).
    unfold range.
    rewrite (range_from_lines _
               (λ i user,
                  match user with
                  | VMap userMap =>
                      "  User " +:+ Go.fmt_d (i + 1) +:+ ": ID=" +:+
                      Go.fmt_d (GetIntArg userMap "id" []) +:+ " Name=" +:+
                      GetStringArg userMap "name" [] +:+ " Email=" +:+
                      GetStringArg userMap "email" [] +:+ nl
                  | _ => ""
                  end)).
    + by rewrite !append_assoc.
    + intros k x st Hk. unfold writeListedUser.
      destruct x; try (by rewrite append_nil_r).
      by rewrite (add_one_index (user :: users)).
  - unfold writeOptionalUsers.
    destruct (GetArrayArg args "optionalUsers") as [|user users] eqn:Heq.
    { rewrite decide_False by (unfold Go.len; cbn [length]; lia).
      by rewrite append_nil_r. }
    rewrite decide_True by (unfold Go.len; cbn [length]; lia).
    unfold range.
    rewrite (range_from_lines _
               (λ i user,
                  match user with
                  | VNil =>
                      "  Optional User " +:+ Go.fmt_d (i + 1) +:+
                      ": null" +:+ nl
                  | VMap userMap =>
                      "  Optional User " +:+ Go.fmt_d (i + 1) +:+
                      ": Name=" +:+ GetStringArg userMap "name" [] +:+
                      " Email=" +:+ GetStringArg userMap "email" [] +:+ nl
                  | _ => ""
                  end)).
    + by rewrite !append_assoc.
    + intros k x st Hk. unfold writeOptionalUser.
      destruct x; try (by rewrite append_nil_r);
        by rewrite (add_one_index (user :: users)).
Qed.

Lemma processComplexData_user_lists_witness :
  writeOptionalUsers SpecSDK.GetArrayArg SpecSDK.GetStringArg
    (<["optionalUsers" :=
         VSlice [VMap (<["name" := VString "Ann"]> ∅); VInt 7; VNil]]> ∅)
    ""
  = "Optional Users:" +:+ nl +:+
    "  Optional User 1: Name=Ann Email=" +:+ nl +:+
    "  Optional User 3: null" +:+ nl.
Proof.
  destruct (processComplexData_user_lists
              SpecSDK.GetArrayArg SpecSDK.GetIntArg SpecSDK.GetStringArg
              (<["optionalUsers" :=
                   VSlice [VMap (<["name" := VString "Ann"]> ∅); VInt 7; VNil]]> ∅)
              "") as [_ ->]; by vm_compute.
Defined.

(** ** helloWorldResolver *)

(** X16. The greeting response is made of, in this order: the header line;
    one line for each of the plugin, project, user and tenant ids that is
    not empty; the line "Hello, <name>!", with "World" as the default handed
    to the SDK; when the object argument has fields, its name and age; and,
    when arrayofObjects is not empty, one line per element that is an
    object, numbered by its position in the array counted from 1, elements
    of another type being passed over without a line. *)
Theorem helloWorldResolver_response
    (ParseArgsForResolver : string → gmap string Value → gmap string Value)
    (GetObjectArg : gmap string Value → string → gmap string Value)
    (GetArrayArg : gmap string Value → string → list Value)
    (GetIntArg : gmap string Value → string → list Z → Z)
    (GetStringArg : gmap string Value → string → list string → string)
    (GetPluginID GetProjectID GetUserID GetTenantID : gmap string Value → string)
    (rawArgs : gmap string Value) :
  let args := ParseArgsForResolver "helloWorldQuery" rawArgs in
  Go.len (GetArrayArg args "arrayofObjects") < MaxSliceLen →
  helloWorldResolver ParseArgsForResolver GetObjectArg GetArrayArg GetIntArg
    GetStringArg GetPluginID GetProjectID GetUserID GetTenantID rawArgs
  = "Hello World Plugin Response (SDK Version with Auto-Parsing):" +:+ nl +:+
    lineIfSet "🔐 Plugin ID: " (GetPluginID rawArgs) +:+
    lineIfSet "🏗️  Project ID: " (GetProjectID rawArgs) +:+
    lineIfSet "👤 User ID: " (GetUserID rawArgs) +:+
    lineIfSet "🏢 Tenant ID: " (GetTenantID rawArgs) +:+
    "Hello, " +:+ GetStringArg args "name" ["World"] +:+ "!" +:+ nl +:+
    (if decide (size (GetObjectArg args "object") = 0%nat) then ""
     else "Object received: name=" +:+
          GetStringArg (GetObjectArg args "object") "name" [] +:+ " age=" +:+
          Go.fmt_d (GetIntArg (GetObjectArg args "object") "age" []) +:+ nl) +:+
    match GetArrayArg args "arrayofObjects" with
    | [] => ""
    | arrObjs =>
        "Array of Objects received:" +:+ nl +:+
        joinLines
          (imap (λ k obj,
                   match obj with
                   | VMap objMap =>
                       "  Object " +:+ Go.fmt_d (Z.of_nat k + 1) +:+ ": name=" +:+
                       GetStringArg objMap "name" [] +:+ " age=" +:+
                       Go.fmt_d (GetIntArg objMap "age" []) +:+ nl
                   | _ => ""
                   end) arrObjs)
    end.
Proof.
  intros args Hlen. unfold helloWorldResolver, lineIfSet. fold args.
  assert (Harray :
    ∀ result,
      (if decide (Go.len (GetArrayArg args "arrayofObjects") > 0)
       then range (writeObject GetIntArg GetStringArg)
              (GetArrayArg args "arrayofObjects")
              (result +:+ "Array of Objects received:" +:+ nl)
       else result)
      = result +:+
        match GetArrayArg args "arrayofObjects" with
        | [] => ""
        | arrObjs =>
            "Array of Objects received:" +:+ nl +:+
            joinLines
              (imap (λ k obj,
                       match obj with
                       | VMap objMap =>
                           "  Object " +:+ Go.fmt_d (Z.of_nat k + 1) +:+
                           ": name=" +:+ GetStringArg objMap "name" [] +:+
                           " age=" +:+
                           Go.fmt_d (GetIntArg objMap "age" []) +:+ nl
                       | _ => ""
                       end) arrObjs)
        end).
  { intros result.
    destruct (GetArrayArg args "arrayofObjects") as [|obj arrObjs] eqn:Heq.
    { rewrite decide_False by (unfold Go.len; cbn [length]; lia).
      by rewrite append_nil_r. }
    rewrite decide_True by (unfold Go.len; cbn [length]; lia).
    unfold range.
    rewrite (range_from_lines _
               (λ i obj,
                  match obj with
                  | VMap objMap =>
                      "  Object " +:+ Go.fmt_d (i + 1) +:+ ": name=" +:+
                      GetStringArg objMap "name" [] +:+ " age=" +:+
                      Go.fmt_d (GetIntArg objMap "age" []) +:+ nl
                  | _ => ""
                  end)).
    + by rewrite !append_assoc.
    + intros k x st Hk. unfold writeObject.
      destruct x; try (by rewrite append_nil_r).
      by rewrite (add_one_index (obj :: arrObjs)). }
  rewrite Harray.
  destruct (decide (size (GetObjectArg args "object") = 0%nat)) as [Hobj|Hobj].
  - rewrite (decide_False (P := Z.of_nat _ > 0)) by lia.
    repeat case_decide; rewrite ?append_nil_l, ?append_assoc; reflexivity.
  - rewrite (decide_True (P := Z.of_nat _ > 0)) by lia.
    repeat case_decide; rewrite ?append_nil_l, ?append_assoc; reflexivity.
Qed.

Lemma helloWorldResolver_response_witness :
  helloWorldResolver SpecSDK.ParseArgsForResolver SpecSDK.GetObjectArg
    SpecSDK.GetArrayArg SpecSDK.GetIntArg SpecSDK.GetStringArg
    (SpecSDK.GetContextID "plugin_id") (SpecSDK.GetContextID "project_id")
    (SpecSDK.GetContextID "user_id") (SpecSDK.GetContextID "tenant_id")
    (<["user_id" := VString "u-42"]>
       (<["arrayofObjects" :=
            VSlice [VMap (<["name" := VString "Ann"]> (<["age" := VInt 31]> ∅));
                    VString "stray";
                    VMap (<["name" := VString "Bob"]> ∅)]]> ∅))
  = "Hello World Plugin Response (SDK Version with Auto-Parsing):" +:+ nl +:+
    "👤 User ID: u-42" +:+ nl +:+
    "Hello, World!" +:+ nl +:+
    "Array of Objects received:" +:+ nl +:+
    "  Object 1: name=Ann age=31" +:+ nl +:+
    "  Object 3: name=Bob age=0" +:+ nl.
Proof.
  etrans; [apply helloWorldResolver_response |]; by vm_compute.
Defined.
